(** * FlexibleGrading: the answer-button layer ([answer_buttons.py])

    A shallow embedding of the button-list filter, the back-side markup
    post-processor and the front-side row builder, together with the
    properties the specification states about them.

    Python values are modelled as follows.
    - [int] action codes (eases) are [Z]; string offsets are [nat].
    - [str] is a list of characters, [str := list ascii]; literals are
      written [lit "..."] and the double quote is the character [dq].
    - a button tuple [(ease, label)] is a pair [Z * str]; a tuple of
      buttons is a list.
    - the host objects ([Reviewer], [tr], [config]) are records whose fields
      are the methods the module calls; [json.dumps] is a variable of the
      section that uses it.
    - an exception is the [Raise] constructor of [result]. *)

From Stdlib Require Import List ZArith Ascii Bool Arith Lia.
From Stdlib Require String.
Import ListNotations.
Import String.StringSyntax.
Delimit Scope string_scope with string.

(** ** Python strings *)

Definition str : Type := list ascii.

Definition lit (s : String.string) : str := String.list_ascii_of_string s.

Arguments lit s%_string.

(** The double-quote character. *)
Definition dq : ascii := "034"%char.

(** The line-feed character. *)
Definition nl : ascii := "010"%char.

Module PyStr.

(** [s.startswith(p)] *)
Fixpoint startswith (p s : str) : bool :=
  match p, s with
  | [], _ => true
  | _ :: _, [] => false
  | a :: p', c :: s' => Ascii.eqb a c && startswith p' s'
  end.

(** [p in s] *)
Fixpoint contains (p s : str) : bool :=
  startswith p s ||
  match s with
  | [] => false
  | _ :: s' => contains p s'
  end.

(** The scan behind [s.replace(old, new)] for a non-empty [old]: walk the
    string from the left; at a position where [old] starts, emit [new] and
    skip the rest of the occurrence ([skip] counts the characters of the
    occurrence still to be passed over), elsewhere copy the character. *)
Fixpoint replace_scan (old new : str) (skip : nat) (s : str) : str :=
  match s with
  | [] => []
  | c :: s' =>
      match skip with
      | S k => replace_scan old new k s'
      | O =>
          if startswith old s
          then new ++ replace_scan old new (length old - 1) s'
          else c :: replace_scan old new 0 s'
      end
  end.

(** [s.replace(old, new)].  With an empty [old], Python inserts [new]
    before every character and at the end. *)
Definition replace (old new s : str) : str :=
  match old with
  | [] => new ++ flat_map (fun c => c :: new) s
  | _ :: _ => replace_scan old new 0 s
  end.

(** The scan behind [re.finditer] for a literal, non-empty pattern: the
    start offsets of the non-overlapping matches, leftmost first; [i] is
    the offset of the head of [s]. *)
Fixpoint finditer_scan (pat : str) (skip i : nat) (s : str) : list nat :=
  match s with
  | [] => []
  | _ :: s' =>
      match skip with
      | S k => finditer_scan pat k (S i) s'
      | O =>
          if startswith pat s
          then i :: finditer_scan pat (length pat - 1) (S i) s'
          else finditer_scan pat 0 (S i) s'
      end
  end.

(** The matches in a text whose first character has offset [i]. *)
Definition finditer_from (pat : str) (i : nat) (s : str) : list nat :=
  finditer_scan pat 0 i s.

(** [[m.start() for m in re.finditer(pat, s)]] for a pattern without
    regular-expression metacharacters. *)
Definition finditer (pat s : str) : list nat := finditer_from pat 0 s.

(** The scan behind [s.split(sep)] for a non-empty [sep]: an occurrence of
    [sep] closes the current piece, any other character goes into it. *)
Fixpoint split_scan (sep : str) (skip : nat) (s : str) : list str :=
  match s with
  | [] => [[]]
  | c :: s' =>
      match skip with
      | S k => split_scan sep k s'
      | O =>
          if startswith sep s
          then [] :: split_scan sep (length sep - 1) s'
          else match split_scan sep 0 s' with
               | u :: us => (c :: u) :: us
               | [] => [[c]]
               end
      end
  end.

(** [s.split(sep)] for a non-empty [sep]: the pieces of [s] between the
    occurrences of [sep] that [replace] finds. *)
Definition split (sep s : str) : list str := split_scan sep 0 s.

(** [sep.join(parts)] *)
Fixpoint join (sep : str) (parts : list str) : str :=
  match parts with
  | [] => []
  | [u] => u
  | u :: rest => u ++ sep ++ join sep rest
  end.

End PyStr.

Arguments PyStr.replace : simpl never.

(** ** Results of computations that may raise *)

Inductive exn : Type := IndexError.

Inductive result (A : Type) : Type :=
| Ok (a : A)
| Raise (e : exn).

Arguments Ok {A} a.
Arguments Raise {A} e.

(** ** Python list operations used by the module *)

(** [l.insert(i, x)] for [i >= 0]; past the end it appends. *)
Definition list_insert {A : Type} (i : nat) (x : A) (l : list A) : list A :=
  firstn i l ++ x :: skipn i l.

(** [l[-1]] *)
Fixpoint last_item {A : Type} (l : list A) : result A :=
  match l with
  | [] => Raise IndexError
  | [x] => Ok x
  | _ :: l' => last_item l'
  end.

(** ** The configuration and the host *)

(** The add-on's [config] object: the five switches and [get_color]. *)
Record Config : Type := {
  pass_fail : bool;
  color_buttons : bool;
  remove_buttons : bool;
  prevent_clicks : bool;
  flexible_grading : bool;
  get_color : Z -> Z -> str
}.

Definition button : Type := (Z * str)%type.

(** The host's v3 card information; [states] is an opaque handle that is
    only passed back to the scheduler. *)
Record V3CardInfo : Type := {
  states : nat
}.

(** The host's [Reviewer], as far as this module calls it.
    [describe_next_states] is [self.mw.col.sched.describe_next_states], and
    [_answerButtons] is the host's own rendering of the back-side row. *)
Record Reviewer : Type := {
  _defaultEase : Z;
  _answerButtonList : list button;
  _v3 : option V3CardInfo;
  describe_next_states : nat -> list str;
  _buttonTime : Z -> option (list str) -> str;
  _remaining : str;
  _answerButtons : str
}.

(** The host's translation module [tr]. *)
Record Translations : Type := {
  actions_shortcut_key : str -> str;
  studying_space : str;
  studying_show_answer : str
}.

(** The host's renderer, kept by the module before it wraps it. *)
Definition _ans_buttons_default (self : Reviewer) : str :=
  _answerButtons self.

(** ** Button-list filter *)

Definition is_again_or_good (default_ease : Z) (b : button) : bool :=
  let '(ease, _label) := b in
  (ease =? 1)%Z || (ease =? default_ease)%Z.

Definition only_pass_fail (buttons : list button) (default_ease : Z)
  : list button :=
  filter (is_again_or_good default_ease) buttons.

Definition color_label (config : Config) (default_ease : Z) (b : button)
  : button :=
  let '(ease, label) := b in
  (ease,
   lit "<font color=" ++ [dq] ++ get_color config ease default_ease
     ++ [dq] ++ lit ">" ++ label ++ lit "</font>").

Definition apply_label_colors (config : Config) (buttons : list button)
  (default_ease : Z) : list button :=
  map (color_label config default_ease) buttons.

Definition filter_answer_buttons (config : Config) (buttons : list button)
  (self : Reviewer) : list button :=
  let buttons :=
    if pass_fail config
    then only_pass_fail buttons (_defaultEase self)
    else buttons in
  let buttons :=
    if color_buttons config
    then apply_label_colors config buttons (_defaultEase self)
    else buttons in
  buttons.

(** ** Markup post-processor (back side) *)

Definition get_ease_row_css : str := lit "
    <style>
    .ajt__ease_row {
        display: flex;
        flex-flow: row nowrap;
        justify-content: space-between;
        align-items: flex-start;
        max-width: 450px;
        min-width: 200px;
        user-select: none;
        margin: -3px auto 0;
    }
    .ajt__ease_row > * {
        white-space: nowrap;
        font-size: small;
        font-weight: normal;
    }
    .ajt__ease_row > .ajt__stat_txt:only-child {
        margin: 0 auto;
    }
    </style>
    ".

(** The literal [class="nobold"]. *)
Definition nobold : str := lit "class=" ++ [dq] ++ lit "nobold" ++ [dq].

(** The replacement for [<span] when labels are coloured. *)
Definition colored_span (color : str) : str :=
  lit "<span style=" ++ [dq] ++ lit "color: " ++ color ++ lit ";" ++ [dq].

(** The inner function [button_time] of [make_buttonless_ease_row]. *)
Definition button_time (config : Config) (self : Reviewer) (ease : Z) : str :=
  let labels :=
    match _v3 self with
    | Some v3 => Some (describe_next_states self (states v3))
    | None => None
    end in
  let html := PyStr.replace nobold (lit "") (_buttonTime self ease labels) in
  if color_buttons config
  then PyStr.replace (lit "<span")
         (colored_span (get_color config ease (_defaultEase self))) html
  else html.

(** The inner function [stat_txt] of [make_buttonless_ease_row]. *)
Definition stat_txt (self : Reviewer) : str :=
  lit "<div class=" ++ [dq] ++ lit "ajt__stat_txt" ++ [dq] ++ lit ">"
    ++ _remaining self ++ lit "</div>".

(** The list [ease_row] of [make_buttonless_ease_row] as it stands when the
    row is rendered. *)
Definition ease_row (config : Config) (self : Reviewer) (front : bool)
  : list str :=
  let ease_row := [] in
  let ease_row :=
    if negb front || flexible_grading config
    then ease_row ++ map (fun b : button => let '(ease, _label) := b in
                                             button_time config self ease)
                         (_answerButtonList self)
    else ease_row in
  let ease_row :=
    if front
    then list_insert (length ease_row / 2) (stat_txt self) ease_row
    else ease_row in
  ease_row.

Definition make_buttonless_ease_row (config : Config) (self : Reviewer)
  (front : bool) : str :=
  get_ease_row_css
    ++ lit "<div class=" ++ [dq] ++ lit "ajt__ease_row" ++ [dq] ++ lit ">"
    ++ PyStr.join (lit "") (ease_row config self front) ++ lit "</div>".

Definition disable_buttons (html : str) : str :=
  PyStr.replace (lit "<button") (lit "<button disabled") html.

Definition make_backside_answer_buttons (config : Config) (self : Reviewer)
  (_old : Reviewer -> str) : str :=
  if remove_buttons config then make_buttonless_ease_row config self false
  else if prevent_clicks config then disable_buttons (_old self)
  else _old self.

(** ** Front-side row builder *)

(** The inner function [make_show_ans_button]; the literal starts and ends
    with a line feed and eight spaces. *)
Definition make_show_ans_button (tr : Translations) (self : Reviewer) : str :=
  [nl] ++ lit "        <button title=" ++ [dq]
    ++ actions_shortcut_key tr (studying_space tr)
    ++ [dq] ++ lit " onclick='pycmd(" ++ [dq] ++ lit "ans" ++ [dq]
    ++ lit ");'>" ++ studying_show_answer tr
    ++ lit "<span class=stattxt>" ++ _remaining self
    ++ lit "</span></button>" ++ [nl] ++ lit "        ".

Definition make_show_ans_table_cell (tr : Translations) (self : Reviewer)
  : str :=
  lit "<td align=center>" ++ make_show_ans_button tr self ++ lit "</td>".

Definition calc_middle_insert_pos (buttons_html_table : str) : result nat :=
  let cell_positions := PyStr.finditer (lit "<td") buttons_html_table in
  last_item (firstn (length cell_positions / 2 + 1) cell_positions).

Definition make_flexible_front_row (tr : Translations) (self : Reviewer)
  : result str :=
  let ans_buttons := _ans_buttons_default self in
  match calc_middle_insert_pos ans_buttons with
  | Raise e => Raise e
  | Ok insert_pos =>
      Ok (firstn insert_pos ans_buttons ++ make_show_ans_table_cell tr self
            ++ skipn insert_pos ans_buttons)
  end.

(** The value of the local [html] of [make_frontside_answer_buttons] when
    the function reaches its last [if]; [None] is Python's [None]. *)
Definition frontside_html (config : Config) (tr : Translations)
  (self : Reviewer) : result (option str) :=
  if remove_buttons config
  then Ok (Some (make_buttonless_ease_row config self true))
  else if flexible_grading config
  then match make_flexible_front_row tr self with
       | Raise e => Raise e
       | Ok html =>
           Ok (Some (if prevent_clicks config then disable_buttons html
                     else html))
       end
  else Ok None.

(** The calls made on [self.bottom.web]. *)
Inductive WebCall : Type :=
| web_eval (js : str)
| adjustHeightToFit.

Section Frontside.

(** [json.dumps] on a string. *)
Variable json_dumps : str -> str.

(** The function returns [None]; its result here is the sequence of calls
    it makes on the bottom web view. *)
Definition make_frontside_answer_buttons (config : Config)
  (tr : Translations) (self : Reviewer) : result (list WebCall) :=
  match frontside_html config tr self with
  | Raise e => Raise e
  | Ok None => Ok []
  | Ok (Some html) =>
      Ok [web_eval (lit "showAnswer(" ++ json_dumps html ++ lit ");");
          adjustHeightToFit]
  end.

End Frontside.

(** ** Vocabulary of the specification *)

(** [l1] is [l2] with some entries left out, the others in their order. *)
Inductive subseq {A : Type} : list A -> list A -> Prop :=
| subseq_nil : subseq [] []
| subseq_skip (x : A) (l1 l2 : list A) : subseq l1 l2 -> subseq l1 (x :: l2)
| subseq_keep (x : A) (l1 l2 : list A) :
    subseq l1 l2 -> subseq (x :: l1) (x :: l2).

(** [y] is empty or begins with the character [a]. *)
Definition at_marker (a : ascii) (y : str) : Prop :=
  match y with
  | [] => True
  | c :: _ => c = a
  end.

(** Every offset at which [pat] starts in a text whose first character has
    offset [i], overlapping or not. *)
Fixpoint occurrences (pat : str) (i : nat) (s : str) : list nat :=
  match s with
  | [] => []
  | _ :: s' =>
      if PyStr.startswith pat s
      then i :: occurrences pat (S i) s'
      else occurrences pat (S i) s'
  end.

(** The front-side row as section 4.3 of the specification words it for
    "remove buttons": the buttonless row of section 4.2 with the
    remaining-counts indicator inserted at its midpoint. *)
Definition spec_front_row (config : Config) (self : Reviewer) : str :=
  let labels := ease_row config self false in
  get_ease_row_css
    ++ lit "<div class=" ++ [dq] ++ lit "ajt__ease_row" ++ [dq] ++ lit ">"
    ++ concat (list_insert (length labels / 2) (stat_txt self) labels)
    ++ lit "</div>".

(** ** Sample inputs *)

Definition four_buttons : list button :=
  [(1%Z, lit "Again"); (2%Z, lit "Hard"); (3%Z, lit "Good");
   (4%Z, lit "Easy")].

(** A colour table that answers [red] for ease 1 under default ease 3. *)
Definition sample_colors (ease default_ease : Z) : str :=
  if (ease =? 1)%Z && (default_ease =? 3)%Z then lit "red" else lit "green".

Definition sample_config (pf cb rb pc fg : bool) : Config :=
  {| pass_fail := pf; color_buttons := cb; remove_buttons := rb;
     prevent_clicks := pc; flexible_grading := fg;
     get_color := sample_colors |}.

(** The host's usual time label. *)
Definition sample_time : str :=
  lit "<span class=" ++ [dq] ++ lit "nobold" ++ [dq] ++ lit ">10m</span>".

Definition sample_row : str :=
  lit "<table><tr><td>A</td><td>B</td><td>C</td><td>D</td></tr></table>".

Definition sample_reviewer : Reviewer :=
  {| _defaultEase := 3;
     _answerButtonList := four_buttons;
     _v3 := None;
     describe_next_states := fun _ => [];
     _buttonTime := fun _ _ => sample_time;
     _remaining := lit "1+2+3";
     _answerButtons := sample_row |}.

Definition sample_tr : Translations :=
  {| actions_shortcut_key := fun val => lit "Shortcut key: " ++ val;
     studying_space := lit "Space";
     studying_show_answer := lit "Show Answer" |}.

(** A host whose time label nests the class string in itself. *)
Definition nested_time : str :=
  lit "class=" ++ [dq] ++ nobold ++ lit "nobold" ++ [dq].

Definition nested_reviewer : Reviewer :=
  {| _defaultEase := 3;
     _answerButtonList := [(3%Z, lit "Good")];
     _v3 := None;
     describe_next_states := fun _ => [];
     _buttonTime := fun _ _ => nested_time;
     _remaining := lit "1+2+3";
     _answerButtons := sample_row |}.

(** A host whose time label is the usual one for four days. *)
Definition days_reviewer : Reviewer :=
  {| _defaultEase := 3;
     _answerButtonList := four_buttons;
     _v3 := None;
     describe_next_states := fun _ => [];
     _buttonTime := fun _ _ =>
       lit "<span class=" ++ [dq] ++ lit "nobold" ++ [dq]
         ++ lit ">4d</span>";
     _remaining := lit "1+2+3";
     _answerButtons := sample_row |}.

(** A configuration that removes the buttons and colours every label
    blue. *)
Definition blue_config : Config :=
  {| pass_fail := false; color_buttons := true; remove_buttons := true;
     prevent_clicks := false; flexible_grading := true;
     get_color := fun _ _ => lit "blue" |}.

(** A host whose time label has no class attribute. *)
Definition plain_reviewer : Reviewer :=
  {| _defaultEase := 3;
     _answerButtonList := four_buttons;
     _v3 := Some {| states := 0 |};
     describe_next_states := fun _ => [lit "1m"; lit "6m"; lit "10m"];
     _buttonTime := fun _ _ => lit "<span>10m</span>";
     _remaining := lit "1+2+3";
     _answerButtons := sample_row |}.

(** A host whose back-side row has no cell. *)
Definition bare_reviewer : Reviewer :=
  {| _defaultEase := 3;
     _answerButtonList := [];
     _v3 := None;
     describe_next_states := fun _ => [];
     _buttonTime := fun _ _ => sample_time;
     _remaining := lit "0+0+0";
     _answerButtons := lit "<table><tr></tr></table>" |}.

(** A configuration whose colour string carries the class string. *)
Definition styled_config : Config :=
  {| pass_fail := false; color_buttons := true; remove_buttons := true;
     prevent_clicks := false; flexible_grading := false;
     get_color := fun _ _ => lit "red;" ++ [dq] ++ lit " " ++ nobold |}.

(** * Properties *)

(** ** Prefixes *)

Lemma startswith_nil_l (s : str) : PyStr.startswith [] s = true.
Proof. destruct s; reflexivity. Qed.

Lemma startswith_app (p t : str) : PyStr.startswith p (p ++ t) = true.
Proof.
  induction p as [|a p IH]; simpl.
  - reflexivity.
  - rewrite Ascii.eqb_refl. exact IH.
Qed.

Lemma startswith_split (p s : str) :
  PyStr.startswith p s = true -> s = p ++ skipn (length p) s.
Proof.
  revert s. induction p as [|a p IH]; intros s H.
  - reflexivity.
  - destruct s as [|c s]; simpl in H; [discriminate|].
    apply andb_prop in H. destruct H as [Hc Hp].
    apply Ascii.eqb_eq in Hc. subst c. simpl. f_equal. apply IH, Hp.
Qed.

Lemma startswith_iff (p s : str) :
  PyStr.startswith p s = true <-> exists t, s = p ++ t.
Proof.
  split.
  - intro H. exists (skipn (length p) s). apply startswith_split, H.
  - intros [t ->]. apply startswith_app.
Qed.

Lemma startswith_app_l (p q s : str) :
  PyStr.startswith (p ++ q) s = true -> PyStr.startswith p s = true.
Proof.
  intro H. apply startswith_iff in H. destruct H as [t ->].
  rewrite <- app_assoc. apply startswith_app.
Qed.

Lemma startswith_extend (p s t : str) :
  PyStr.startswith p s = true -> PyStr.startswith p (s ++ t) = true.
Proof.
  intro H. apply startswith_iff in H. destruct H as [u ->].
  rewrite <- app_assoc. apply startswith_app.
Qed.

Lemma startswith_head (a c : ascii) (p s : str) :
  a <> c -> PyStr.startswith (a :: p) (c :: s) = false.
Proof.
  intro H. simpl. apply Ascii.eqb_neq in H. rewrite H. reflexivity.
Qed.

Lemma contains_chars (p s : str) (x : ascii) :
  PyStr.contains p s = true -> In x p -> In x s.
Proof.
  intros H Hx. induction s as [|c s IH].
  - simpl in H. destruct p; [elim Hx | discriminate H].
  - change (PyStr.contains p (c :: s))
      with (PyStr.startswith p (c :: s) || PyStr.contains p s) in H.
    apply orb_prop in H. destruct H as [H|H].
    + apply startswith_iff in H. destruct H as [t ->].
      apply in_or_app. left. exact Hx.
    + right. apply IH, H.
Qed.

Lemma join_empty (parts : list str) : PyStr.join [] parts = concat parts.
Proof.
  induction parts as [|u [|v parts] IH].
  - reflexivity.
  - simpl. rewrite app_nil_r. reflexivity.
  - change (PyStr.join [] (u :: v :: parts))
      with (u ++ [] ++ PyStr.join [] (v :: parts)).
    rewrite IH. reflexivity.
Qed.

(** ** The left-to-right scan for a non-empty pattern *)

Section Scan.

Variables (a : ascii) (rest : str).

Local Abbreviation pat := (a :: rest).

Lemma skipn_pat (t : str) : skipn (length rest) (rest ++ t) = t.
Proof.
  rewrite skipn_app, skipn_all, Nat.sub_diag. reflexivity.
Qed.

Lemma replace_scan_skip (new : str) (k : nat) (s : str) :
  PyStr.replace_scan pat new k s = PyStr.replace_scan pat new 0 (skipn k s).
Proof.
  revert k. induction s as [|c s IH]; intros [|k]; try reflexivity.
  simpl PyStr.replace_scan at 1. rewrite IH. reflexivity.
Qed.

Lemma replace_nil (new : str) : PyStr.replace pat new [] = [].
Proof. reflexivity. Qed.

Lemma replace_scan_cons (new : str) (c : ascii) (s : str) :
  PyStr.replace_scan pat new 0 (c :: s) =
  if PyStr.startswith pat (c :: s)
  then new ++ PyStr.replace_scan pat new (length pat - 1) s
  else c :: PyStr.replace_scan pat new 0 s.
Proof. reflexivity. Qed.

Lemma replace_hit (new t : str) :
  PyStr.replace pat new (pat ++ t) = new ++ PyStr.replace pat new t.
Proof.
  pose proof (startswith_app pat t) as E.
  unfold PyStr.replace. simpl app in *.
  rewrite replace_scan_cons, E, replace_scan_skip.
  replace (length pat - 1) with (length rest) by (simpl; lia).
  rewrite skipn_pat. reflexivity.
Qed.

Lemma replace_miss (new : str) (c : ascii) (s : str) :
  PyStr.startswith pat (c :: s) = false ->
  PyStr.replace pat new (c :: s) = c :: PyStr.replace pat new s.
Proof.
  intro H. unfold PyStr.replace.
  rewrite replace_scan_cons, H. reflexivity.
Qed.

(** Induction along the scan: the empty string, a string that starts with
    an occurrence, a string that starts with a copied character. *)
Lemma scan_ind (P : str -> Prop) :
  P [] ->
  (forall t, P t -> P (pat ++ t)) ->
  (forall c s, PyStr.startswith pat (c :: s) = false -> P s -> P (c :: s)) ->
  forall s, P s.
Proof.
  intros Hnil Hhit Hmiss s.
  assert (H : forall n s, length s <= n -> P s).
  { clear s. induction n as [|n IH]; intros s Hn.
    - destruct s; [exact Hnil | simpl in Hn; lia].
    - destruct s as [|c s]; [exact Hnil|].
      destruct (PyStr.startswith pat (c :: s)) eqn:E.
      + apply startswith_split in E. rewrite E. apply Hhit, IH.
        rewrite length_skipn. simpl in *. lia.
      + apply Hmiss; [exact E|]. apply IH. simpl in Hn. lia. }
  apply (H (length s)). lia.
Qed.

Lemma finditer_scan_skip (k i : nat) (s : str) :
  PyStr.finditer_scan pat k i s = PyStr.finditer_from pat (i + k) (skipn k s).
Proof.
  unfold PyStr.finditer_from.
  revert k i. induction s as [|c s IH]; intros [|k] i; try reflexivity.
  - rewrite Nat.add_0_r. reflexivity.
  - simpl PyStr.finditer_scan at 1. rewrite IH. simpl skipn.
    replace (S i + k) with (i + S k) by lia. reflexivity.
Qed.

Lemma finditer_scan_cons (i : nat) (c : ascii) (s : str) :
  PyStr.finditer_scan pat 0 i (c :: s) =
  if PyStr.startswith pat (c :: s)
  then i :: PyStr.finditer_scan pat (length pat - 1) (S i) s
  else PyStr.finditer_scan pat 0 (S i) s.
Proof. reflexivity. Qed.

Lemma finditer_from_hit (i : nat) (t : str) :
  PyStr.finditer_from pat i (pat ++ t) =
  i :: PyStr.finditer_from pat (i + length pat) t.
Proof.
  pose proof (startswith_app pat t) as E.
  unfold PyStr.finditer_from at 1. simpl app in *.
  rewrite finditer_scan_cons, E, finditer_scan_skip.
  replace (length pat - 1) with (length rest) by (simpl; lia).
  rewrite skipn_pat.
  replace (S i + length rest) with (i + length pat) by (simpl; lia).
  reflexivity.
Qed.

Lemma finditer_from_miss (i : nat) (c : ascii) (s : str) :
  PyStr.startswith pat (c :: s) = false ->
  PyStr.finditer_from pat i (c :: s) = PyStr.finditer_from pat (S i) s.
Proof.
  intro H. unfold PyStr.finditer_from.
  rewrite finditer_scan_cons, H. reflexivity.
Qed.

Lemma finditer_from_shift (i : nat) (s : str) :
  PyStr.finditer_from pat i s = map (Nat.add i) (PyStr.finditer_from pat 0 s).
Proof.
  revert i. induction s as [|t IH|c s E IH] using scan_ind; intro i.
  - reflexivity.
  - rewrite !finditer_from_hit.
    rewrite (IH (i + length pat)), (IH (0 + length pat)).
    cbn [map]. rewrite map_map. f_equal; [lia|].
    apply map_ext. intro x. lia.
  - rewrite !finditer_from_miss by exact E.
    rewrite (IH (S i)), (IH 1), map_map. apply map_ext. intro x. lia.
Qed.

Lemma finditer_from_lower (i : nat) (s : str) :
  Forall (fun p => i <= p) (PyStr.finditer_from pat i s).
Proof.
  revert i. induction s as [|t IH|c s E IH] using scan_ind; intro i.
  - constructor.
  - rewrite finditer_from_hit. constructor; [lia|].
    eapply Forall_impl; [|apply IH]. simpl. intros; lia.
  - rewrite finditer_from_miss by exact E.
    eapply Forall_impl; [|apply IH]. simpl. intros; lia.
Qed.

Lemma finditer_from_upper (i : nat) (s : str) :
  Forall (fun p => p < i + length s) (PyStr.finditer_from pat i s).
Proof.
  revert i. induction s as [|t IH|c s E IH] using scan_ind; intro i.
  - constructor.
  - rewrite finditer_from_hit. constructor.
    + rewrite length_app. simpl. lia.
    + eapply Forall_impl; [|apply IH]. simpl. intros p Hp.
      rewrite length_app. simpl. lia.
  - rewrite finditer_from_miss by exact E.
    eapply Forall_impl; [|apply IH]. simpl. intros; lia.
Qed.

(** Each offset reported by the scan is the start of an occurrence. *)
Lemma finditer_occurrence (i p : nat) (s : str) :
  In p (PyStr.finditer_from pat i s) ->
  i <= p /\ PyStr.startswith pat (skipn (p - i) s) = true.
Proof.
  revert i. induction s as [|t IH|c s E IH] using scan_ind;
    intros i H.
  - elim H.
  - rewrite finditer_from_hit in H. destruct H as [<-|H].
    + rewrite Nat.sub_diag. split; [lia | apply startswith_app].
    + destruct (IH _ H) as [H1 H2]. split; [lia|].
      rewrite skipn_app, (skipn_all2 pat) by lia.
      replace (p - i - length pat) with (p - (i + length pat)) by lia.
      exact H2.
  - rewrite finditer_from_miss in H by exact E.
    destruct (IH _ H) as [H1 H2]. split; [lia|].
    replace (p - i) with (S (p - S i)) by lia. exact H2.
Qed.

Lemma contains_finditer (i : nat) (s : str) :
  PyStr.contains pat s = true <-> PyStr.finditer_from pat i s <> [].
Proof.
  revert i. induction s as [|t IH|c s E IH] using scan_ind; intro i.
  - simpl. split; [discriminate | intro H; now elim H].
  - rewrite finditer_from_hit. split; [discriminate | intros _].
    pose proof (startswith_app pat t) as E.
    destruct (pat ++ t); simpl in *; rewrite E; reflexivity.
  - rewrite finditer_from_miss by exact E.
    change (PyStr.contains pat (c :: s))
      with (PyStr.startswith pat (c :: s) || PyStr.contains pat s).
    rewrite E. apply IH.
Qed.

Lemma replace_chars (new s : str) (x : ascii) :
  In x (PyStr.replace pat new s) -> In x s \/ In x new.
Proof.
  induction s as [|t IH|c s E IH] using scan_ind; intro H.
  - elim H.
  - rewrite replace_hit in H. apply in_app_or in H.
    destruct H as [H|H]; [right; exact H|].
    destruct (IH H) as [H'|H']; [left|right; exact H'].
    apply in_or_app. right. exact H'.
  - rewrite replace_miss in H by exact E.
    destruct H as [H|H]; [left; left; exact H|].
    destruct (IH H) as [H'|H']; [left; right; exact H'|right; exact H'].
Qed.

Lemma join_head (u : str) (us : list str) :
  exists z, PyStr.join pat (u :: us) = u ++ z.
Proof.
  destruct us as [|v us].
  - exists []. simpl. rewrite app_nil_r. reflexivity.
  - exists (pat ++ PyStr.join pat (v :: us)). reflexivity.
Qed.

Lemma join_cons_char (c : ascii) (u : str) (us : list str) :
  PyStr.join pat ((c :: u) :: us) = c :: PyStr.join pat (u :: us).
Proof. destruct us; reflexivity. Qed.

Lemma split_scan_skip (k : nat) (s : str) :
  PyStr.split_scan pat k s = PyStr.split pat (skipn k s).
Proof.
  unfold PyStr.split.
  revert k. induction s as [|c s IH]; intros [|k]; try reflexivity.
  simpl PyStr.split_scan at 1. rewrite IH. reflexivity.
Qed.

Lemma split_cons (c : ascii) (s : str) :
  PyStr.split pat (c :: s) =
  if PyStr.startswith pat (c :: s)
  then [] :: PyStr.split_scan pat (length pat - 1) s
  else match PyStr.split pat s with
       | u :: us => (c :: u) :: us
       | [] => [[c]]
       end.
Proof. reflexivity. Qed.

Lemma split_hit (t : str) :
  PyStr.split pat (pat ++ t) = [] :: PyStr.split pat t.
Proof.
  pose proof (startswith_app pat t) as E. simpl app in *.
  rewrite split_cons, E, split_scan_skip.
  replace (length pat - 1) with (length rest) by (simpl; lia).
  rewrite skipn_pat. reflexivity.
Qed.

Lemma split_nonempty (s : str) : PyStr.split pat s <> [].
Proof.
  induction s as [|t IH|c s E IH] using scan_ind.
  - discriminate.
  - rewrite split_hit. discriminate.
  - rewrite split_cons, E. destruct (PyStr.split pat s); discriminate.
Qed.

Lemma split_miss (c : ascii) (s : str) :
  PyStr.startswith pat (c :: s) = false ->
  exists u us,
    PyStr.split pat s = u :: us /\ PyStr.split pat (c :: s) = (c :: u) :: us.
Proof.
  intro E. rewrite split_cons, E.
  pose proof (split_nonempty s) as H.
  destruct (PyStr.split pat s) as [|u us]; [now elim H|].
  exists u, us. split; reflexivity.
Qed.

(** The pieces joined by the pattern are the string. *)
Lemma join_split (s : str) : PyStr.join pat (PyStr.split pat s) = s.
Proof.
  induction s as [|t IH|c s E IH] using scan_ind.
  - reflexivity.
  - rewrite split_hit.
    destruct (PyStr.split pat t) as [|u us] eqn:Et.
    + elim (split_nonempty t Et).
    + change (PyStr.join pat ([] :: u :: us))
        with (pat ++ PyStr.join pat (u :: us)).
      rewrite IH. reflexivity.
  - destruct (split_miss c s E) as (u & us & H1 & H2).
    rewrite H2, join_cons_char, <- H1, IH. reflexivity.
Qed.

(** No piece contains the pattern. *)
Lemma split_clean (s : str) :
  Forall (fun v => PyStr.contains pat v = false) (PyStr.split pat s).
Proof.
  induction s as [|t IH|c s E IH] using scan_ind.
  - repeat constructor.
  - rewrite split_hit. constructor; [reflexivity | exact IH].
  - destruct (split_miss c s E) as (u & us & H1 & H2).
    rewrite H2. rewrite H1 in IH.
    apply Forall_cons_iff in IH. destruct IH as [Hu Hus].
    constructor; [|exact Hus].
    change (PyStr.contains pat (c :: u))
      with (PyStr.startswith pat (c :: u) || PyStr.contains pat u).
    rewrite Hu, orb_false_r.
    destruct (PyStr.startswith pat (c :: u)) eqn:E'; [|reflexivity].
    destruct (join_head u us) as [z Hz].
    apply (startswith_extend _ _ z) in E'.
    simpl app in E'. rewrite <- Hz, <- H1, join_split in E'. congruence.
Qed.

(** Deleting the pattern glues the pieces. *)
Lemma replace_split (s : str) :
  PyStr.replace pat [] s = concat (PyStr.split pat s).
Proof.
  induction s as [|t IH|c s E IH] using scan_ind.
  - reflexivity.
  - rewrite replace_hit, split_hit, IH. reflexivity.
  - destruct (split_miss c s E) as (u & us & H1 & H2).
    rewrite replace_miss by exact E. rewrite H2, IH, H1. reflexivity.
Qed.

End Scan.

(** ** Patterns whose first character does not recur in them

    Both [<button] and [<td] start with [<] and have no other [<], so two
    occurrences never overlap and an occurrence never straddles a point
    where the text goes on with [<]. *)

Section Unbordered.

Variables (a : ascii) (rest : str).
Hypothesis a_fresh : ~ In a rest.

Local Abbreviation pat := (a :: rest).

Lemma startswith_before_marker (r x y : str) :
  ~ In a r -> at_marker a y ->
  PyStr.startswith r (x ++ y) = true -> PyStr.startswith r x = true.
Proof.
  revert x. induction r as [|b r IH]; intros x Hr Hy H.
  - destruct x; reflexivity.
  - destruct x as [|c x].
    + destruct y as [|c y]; simpl in H; [discriminate|].
      apply andb_prop in H. destruct H as [H _].
      apply Ascii.eqb_eq in H. simpl in Hy. subst.
      elim Hr. left. reflexivity.
    + simpl in H |- *. apply andb_prop in H. destruct H as [H1 H2].
      rewrite H1. simpl. apply IH; auto.
      intro Hin. apply Hr. right. exact Hin.
Qed.

Lemma startswith_no_straddle (c : ascii) (x y : str) :
  at_marker a y ->
  PyStr.startswith pat (c :: x ++ y) = PyStr.startswith pat (c :: x).
Proof.
  intro Hy.
  destruct (PyStr.startswith pat (c :: x)) eqn:E.
  - apply (startswith_extend _ _ y) in E. exact E.
  - destruct (PyStr.startswith pat (c :: x ++ y)) eqn:E'; [|reflexivity].
    simpl in E, E'. apply andb_prop in E'. destruct E' as [H1 H2].
    rewrite H1 in E. simpl in E.
    rewrite (startswith_before_marker rest x y a_fresh Hy H2) in E.
    discriminate.
Qed.

Lemma finditer_from_app (i : nat) (x y : str) :
  at_marker a y ->
  PyStr.finditer_from pat i (x ++ y) =
  PyStr.finditer_from pat i x ++ PyStr.finditer_from pat (i + length x) y.
Proof.
  intro Hy. revert i.
  induction x as [|t IH|c x E IH] using (scan_ind a rest); intro i.
  - simpl. rewrite Nat.add_0_r. reflexivity.
  - rewrite <- app_assoc, !finditer_from_hit, IH, length_app.
    rewrite Nat.add_assoc. reflexivity.
  - simpl app. rewrite !finditer_from_miss.
    + rewrite IH. simpl length. rewrite Nat.add_succ_r. reflexivity.
    + exact E.
    + rewrite startswith_no_straddle; assumption.
Qed.

Lemma finditer_from_fresh (i : nat) (u y : str) :
  ~ In a u ->
  PyStr.finditer_from pat i (u ++ y) =
  PyStr.finditer_from pat (i + length u) y.
Proof.
  revert i. induction u as [|c u IH]; intros i Hu.
  - simpl. rewrite Nat.add_0_r. reflexivity.
  - simpl app. rewrite finditer_from_miss.
    + rewrite IH; [simpl length; rewrite Nat.add_succ_r; reflexivity|].
      intro H. apply Hu. right. exact H.
    + apply startswith_head. intro H. apply Hu. left. symmetry. exact H.
Qed.

Lemma replace_fresh (new u y : str) :
  ~ In a u ->
  PyStr.replace pat new (u ++ y) = u ++ PyStr.replace pat new y.
Proof.
  induction u as [|c u IH]; intros Hu.
  - reflexivity.
  - simpl app. rewrite replace_miss.
    + rewrite IH; [reflexivity|]. intro H. apply Hu. right. exact H.
    + apply startswith_head. intro H. apply Hu. left. symmetry. exact H.
Qed.

Lemma skipn_fresh (u y : str) (i : nat) :
  ~ In a u ->
  PyStr.startswith pat (skipn i (u ++ y)) = true ->
  length u <= i /\ skipn i (u ++ y) = skipn (i - length u) y.
Proof.
  revert i. induction u as [|c u IH]; intros i Hu H.
  - simpl. rewrite Nat.sub_0_r. split; [lia | reflexivity].
  - destruct i as [|i].
    + simpl in H. apply andb_prop in H. destruct H as [H _].
      apply Ascii.eqb_eq in H. elim Hu. left. symmetry. exact H.
    + simpl in H |- *. destruct (IH i) as [H1 H2]; auto.
      * intro Hin. apply Hu. right. exact Hin.
      * split; [lia | exact H2].
Qed.

Lemma occurrences_fresh (i : nat) (u y : str) :
  ~ In a u ->
  occurrences pat i (u ++ y) = occurrences pat (i + length u) y.
Proof.
  revert i. induction u as [|c u IH]; intros i Hu.
  - simpl. rewrite Nat.add_0_r. reflexivity.
  - cbn [app occurrences]. rewrite startswith_head.
    + rewrite IH; [cbn [length]; rewrite Nat.add_succ_r; reflexivity|].
      intro H. apply Hu. right. exact H.
    + intro H. apply Hu. left. symmetry. exact H.
Qed.

(** The non-overlapping scan finds every occurrence. *)
Lemma finditer_all (i : nat) (s : str) :
  PyStr.finditer_from pat i s = occurrences pat i s.
Proof.
  revert i. induction s as [|t IH|c s E IH] using (scan_ind a rest); intro i.
  - reflexivity.
  - rewrite finditer_from_hit, IH.
    pose proof (startswith_app pat t) as E.
    cbn [app occurrences] in *. rewrite E. f_equal.
    rewrite occurrences_fresh by exact a_fresh.
    cbn [length]. rewrite Nat.add_succ_r. reflexivity.
  - rewrite finditer_from_miss by exact E.
    cbn [occurrences]. rewrite E. apply IH.
Qed.

(** *** Replacing the pattern by itself followed by a marker *)

Section Marking.

Variable extra : str.
Hypothesis extra_fresh : ~ In a extra.

Local Abbreviation marked := (pat ++ extra).
Local Abbreviation mark := (PyStr.replace pat marked).

Lemma startswith_rest_mark (r s : str) :
  ~ In a r ->
  PyStr.startswith r (mark s) = true -> PyStr.startswith r s = true.
Proof.
  revert s. induction r as [|b r IH]; intros s Hr H.
  - destruct s; reflexivity.
  - destruct s as [|c s]; [discriminate H|].
    destruct (PyStr.startswith pat (c :: s)) eqn:E.
    + apply startswith_split in E. rewrite E, replace_hit in H.
      simpl in H. apply andb_prop in H. destruct H as [H _].
      apply Ascii.eqb_eq in H. elim Hr. left. exact H.
    + rewrite replace_miss in H by exact E. simpl in H |- *.
      apply andb_prop in H. destruct H as [H1 H2]. rewrite H1. simpl.
      apply IH; auto. intro Hin. apply Hr. right. exact Hin.
Qed.

Lemma startswith_mark (s : str) :
  PyStr.startswith pat (mark s) = PyStr.startswith pat s.
Proof.
  destruct s as [|c s]; [reflexivity|].
  destruct (PyStr.startswith pat (c :: s)) eqn:E.
  - apply startswith_split in E. rewrite E, replace_hit, <- app_assoc.
    apply startswith_app.
  - rewrite replace_miss by exact E.
    destruct (PyStr.startswith pat (c :: mark s)) eqn:E'; [|reflexivity].
    simpl in E, E'. apply andb_prop in E'. destruct E' as [H1 H2].
    rewrite H1 in E. simpl in E.
    rewrite (startswith_rest_mark rest s a_fresh H2) in E. discriminate.
Qed.

Lemma mark_miss (c : ascii) (s : str) :
  PyStr.startswith pat (c :: s) = false ->
  mark (c :: s) = c :: mark s /\
  PyStr.startswith pat (c :: mark s) = false.
Proof.
  intro E. pose proof (startswith_mark (c :: s)) as H.
  rewrite replace_miss in H |- * by exact E.
  split; [reflexivity | congruence].
Qed.

Lemma rest_extra_fresh : ~ In a (rest ++ extra).
Proof.
  intro H. apply in_app_or in H. destruct H; auto.
Qed.

(** Every occurrence of the pattern in the output is followed by the
    marker. *)
Lemma mark_occurrences (s : str) (i : nat) :
  PyStr.startswith pat (skipn i (mark s)) = true ->
  PyStr.startswith marked (skipn i (mark s)) = true.
Proof.
  revert i. induction s as [|t IH|c s E IH] using (scan_ind a rest); intro i.
  - rewrite replace_nil. destruct i; discriminate.
  - rewrite replace_hit. destruct i as [|i].
    + intros _. apply startswith_app.
    + change ((pat ++ extra) ++ mark t)
        with (a :: ((rest ++ extra) ++ mark t)).
      rewrite skipn_cons. intro H.
      destruct (skipn_fresh _ _ _ rest_extra_fresh H) as [_ H2].
      rewrite H2 in H |- *. apply IH, H.
  - destruct (mark_miss c s E) as [H1 H2]. rewrite H1.
    destruct i as [|i]; cbn [skipn].
    + rewrite H2. discriminate.
    + apply IH.
Qed.

(** The output has as many occurrences as the input. *)
Lemma mark_count (s : str) (i j : nat) :
  length (PyStr.finditer_from pat i (mark s)) =
  length (PyStr.finditer_from pat j s).
Proof.
  revert i j.
  induction s as [|t IH|c s E IH] using (scan_ind a rest); intros i j.
  - reflexivity.
  - rewrite replace_hit, <- app_assoc, !finditer_from_hit.
    rewrite finditer_from_fresh by exact extra_fresh.
    cbn [length]. f_equal. apply IH.
  - destruct (mark_miss c s E) as [H1 H2].
    rewrite H1, !finditer_from_miss by assumption. apply IH.
Qed.

(** The output is longer by one marker for each occurrence. *)
Lemma mark_length (s : str) (i : nat) :
  length (mark s) =
  length s + length extra * length (PyStr.finditer_from pat i s).
Proof.
  revert i. induction s as [|t IH|c s E IH] using (scan_ind a rest); intro i.
  - simpl. lia.
  - rewrite replace_hit, finditer_from_hit, !length_app.
    rewrite (IH (i + length pat)). cbn [length]. lia.
  - rewrite replace_miss, finditer_from_miss by exact E.
    cbn [length]. rewrite (IH (S i)). lia.
Qed.

(** Marking twice is marking once with a doubled marker. *)
Lemma mark_twice (s : str) :
  mark (mark s) = PyStr.replace pat (pat ++ extra ++ extra) s.
Proof.
  induction s as [|t IH|c s E IH] using (scan_ind a rest).
  - reflexivity.
  - rewrite !replace_hit, <- app_assoc, replace_hit.
    rewrite replace_fresh by exact extra_fresh.
    rewrite IH, <- !app_assoc. reflexivity.
  - destruct (mark_miss c s E) as [H1 H2].
    rewrite H1, !replace_miss by assumption. rewrite IH. reflexivity.
Qed.

(** Taking the markers out again gives the input back. *)
Lemma unmark_mark (s : str) : PyStr.replace marked pat (mark s) = s.
Proof.
  induction s as [|t IH|c s E IH] using (scan_ind a rest).
  - reflexivity.
  - rewrite replace_hit.
    change (pat ++ extra) with (a :: (rest ++ extra)) at 1 3.
    rewrite (replace_hit a (rest ++ extra)).
    change (a :: (rest ++ extra)) with (pat ++ extra).
    rewrite IH. reflexivity.
  - destruct (mark_miss c s E) as [H1 H2]. rewrite H1.
    change (pat ++ extra) with (a :: (rest ++ extra)) at 1.
    rewrite (replace_miss a (rest ++ extra)).
    + change (a :: (rest ++ extra)) with (pat ++ extra).
      rewrite IH. reflexivity.
    + destruct (PyStr.startswith (a :: rest ++ extra) (c :: mark s)) eqn:E';
        [|reflexivity].
      apply (startswith_app_l pat extra) in E'. congruence.
Qed.

End Marking.

End Unbordered.

(** ** Lists *)

Lemma subseq_refl {A : Type} (l : list A) : subseq l l.
Proof. induction l; [apply subseq_nil | apply subseq_keep; assumption]. Qed.

Lemma subseq_filter {A : Type} (f : A -> bool) (l : list A) :
  subseq (filter f l) l.
Proof.
  induction l as [|x l IH]; simpl.
  - constructor.
  - destruct (f x); [apply subseq_keep | apply subseq_skip]; exact IH.
Qed.

Lemma subseq_filter_max {A : Type} (f : A -> bool) (m l : list A) :
  subseq m l -> Forall (fun x => f x = true) m -> subseq m (filter f l).
Proof.
  induction 1 as [|x l1 l2 _ IH|x l1 l2 _ IH]; intro Hm; simpl.
  - constructor.
  - destruct (f x); [apply subseq_skip|]; apply IH, Hm.
  - apply Forall_cons_iff in Hm. destruct Hm as [Hx Hm].
    rewrite Hx. apply subseq_keep, IH, Hm.
Qed.

Lemma last_item_firstn {A : Type} (l : list A) (k : nat) (x : A) :
  nth_error l k = Some x -> last_item (firstn (S k) l) = Ok x.
Proof.
  revert k. induction l as [|y l IH]; intros k H.
  - destruct k; discriminate.
  - destruct k as [|k].
    + simpl in H. injection H as ->. reflexivity.
    + simpl in H. specialize (IH k H).
      change (firstn (S (S k)) (y :: l)) with (y :: firstn (S k) l).
      destruct (firstn (S k) l) eqn:E; [discriminate IH | exact IH].
Qed.

Lemma is_again_or_good_iff (d : Z) (b : button) :
  is_again_or_good d b = true <-> fst b = 1%Z \/ fst b = d.
Proof.
  destruct b as [ease label]. simpl.
  rewrite orb_true_iff, !Z.eqb_eq. reflexivity.
Qed.

(** ** Button-list filter *)

(** C1.  [only_pass_fail] returns a subsequence of the button list, in the
    original order, that holds exactly the entries whose action code is 1
    or the default ease: an entry is in the output iff it is in the input
    with such a code, and every subsequence of the input made of such
    entries is a subsequence of the output.  On Again, Hard, Good, Easy
    with default ease 3 it returns Again and Good. *)
Theorem only_pass_fail_spec (buttons : list button) (default_ease : Z) :
  subseq (only_pass_fail buttons default_ease) buttons /\
  (forall b, In b (only_pass_fail buttons default_ease) <->
             In b buttons /\ (fst b = 1%Z \/ fst b = default_ease)) /\
  (forall m, subseq m buttons ->
             Forall (fun b => fst b = 1%Z \/ fst b = default_ease) m ->
             subseq m (only_pass_fail buttons default_ease)) /\
  only_pass_fail four_buttons 3 = [(1%Z, lit "Again"); (3%Z, lit "Good")].
Proof.
  unfold only_pass_fail. repeat split.
  - apply subseq_filter.
  - apply filter_In in H. tauto.
  - apply filter_In in H. apply is_again_or_good_iff. tauto.
  - intros [H1 H2]. apply filter_In. split; [exact H1|].
    apply is_again_or_good_iff, H2.
  - intros m Hm Hall. apply subseq_filter_max; [exact Hm|].
    eapply Forall_impl; [|exact Hall].
    intros b Hb. apply is_again_or_good_iff, Hb.
Qed.

(** C7.  [apply_label_colors] keeps the length of the button list, and at
    every index the output entry has the input entry's action code and the
    input label wrapped in a font tag whose colour is
    [get_color ease default_ease].  With a colour table answering red for
    (1, 3), the list holding Again alone becomes the red Again. *)
Theorem apply_label_colors_spec (config : Config) (buttons : list button)
  (default_ease : Z) :
  length (apply_label_colors config buttons default_ease) = length buttons /\
  (forall i,
     nth_error (apply_label_colors config buttons default_ease) i =
     match nth_error buttons i with
     | Some (ease, label) =>
         Some (ease,
               lit "<font color=" ++ [dq]
                 ++ get_color config ease default_ease ++ [dq] ++ lit ">"
                 ++ label ++ lit "</font>")
     | None => None
     end) /\
  apply_label_colors (sample_config false true false false false)
    [(1%Z, lit "Again")] 3 =
  [(1%Z, lit "<font color=" ++ [dq] ++ lit "red" ++ [dq]
           ++ lit ">Again</font>")].
Proof.
  unfold apply_label_colors. split; [apply length_map|]. split.
  - intro i. rewrite nth_error_map.
    destruct (nth_error buttons i) as [[ease label]|]; reflexivity.
  - reflexivity.
Qed.

Lemma only_pass_fail_colored (config : Config) (buttons : list button)
  (d : Z) :
  only_pass_fail (apply_label_colors config buttons d) d =
  apply_label_colors config (only_pass_fail buttons d) d.
Proof.
  unfold only_pass_fail, apply_label_colors.
  induction buttons as [|[ease label] l IH]; simpl; [reflexivity|].
  rewrite IH. destruct ((ease =? 1)%Z || (ease =? d)%Z); reflexivity.
Qed.

(** C8.  With [pass_fail] and [color_buttons] both enabled,
    [filter_answer_buttons] restricts first and colours second; and the two
    orders of composition agree: colouring and then restricting gives the
    same entries, with the same labels, as restricting and then
    colouring. *)
Theorem filter_answer_buttons_both (config : Config) (buttons : list button)
  (self : Reviewer) :
  pass_fail config = true ->
  color_buttons config = true ->
  let d := _defaultEase self in
  filter_answer_buttons config buttons self =
    apply_label_colors config (only_pass_fail buttons d) d /\
  only_pass_fail (apply_label_colors config buttons d) d =
    apply_label_colors config (only_pass_fail buttons d) d.
Proof.
  intros Hp Hc d. split.
  - unfold filter_answer_buttons. rewrite Hp, Hc. reflexivity.
  - apply only_pass_fail_colored.
Qed.

Lemma filter_answer_buttons_both_witness :
  filter_answer_buttons (sample_config true true false false false)
    four_buttons sample_reviewer =
  [(1%Z, lit "<font color=" ++ [dq] ++ lit "red" ++ [dq]
           ++ lit ">Again</font>");
   (3%Z, lit "<font color=" ++ [dq] ++ lit "green" ++ [dq]
           ++ lit ">Good</font>")].
Proof.
  destruct (filter_answer_buttons_both
              (sample_config true true false false false) four_buttons
              sample_reviewer eq_refl eq_refl) as [H _].
  rewrite H. reflexivity.
Defined.

(** ** Disabling buttons *)

Lemma button_fresh : ~ In "<"%char (lit "button").
Proof. cbv. intuition discriminate. Qed.

Lemma disabled_fresh : ~ In "<"%char (lit " disabled").
Proof. cbv. intuition discriminate. Qed.

Lemma disable_buttons_mark (html : str) :
  disable_buttons html =
  PyStr.replace ("<"%char :: lit "button")
    (("<"%char :: lit "button") ++ lit " disabled") html.
Proof. reflexivity. Qed.

Lemma disable_buttons_occurrences (html : str) (i : nat) :
  PyStr.startswith (lit "<button") (skipn i (disable_buttons html)) = true ->
  PyStr.startswith (lit "<button disabled")
    (skipn i (disable_buttons html)) = true.
Proof.
  intro H. rewrite disable_buttons_mark in *.
  exact (mark_occurrences _ _ button_fresh _ disabled_fresh html i H).
Qed.

(** C6.  In the output of [disable_buttons], wherever [<button] starts the
    text reads [<button disabled]; the output has as many occurrences of
    [<button] as the input; and [<button>Good</button>] becomes
    [<button disabled>Good</button>]. *)
Theorem disable_buttons_spec (html : str) :
  (forall i,
     PyStr.startswith (lit "<button") (skipn i (disable_buttons html))
     = true ->
     PyStr.startswith (lit "<button disabled")
       (skipn i (disable_buttons html)) = true) /\
  length (occurrences (lit "<button") 0 (disable_buttons html)) =
  length (occurrences (lit "<button") 0 html) /\
  disable_buttons (lit "<button>Good</button>") =
  lit "<button disabled>Good</button>".
Proof.
  split; [|split].
  - apply disable_buttons_occurrences.
  - change (lit "<button") with ("<"%char :: lit "button").
    rewrite <- !(finditer_all _ _ button_fresh), disable_buttons_mark.
    apply (mark_count _ _ button_fresh _ disabled_fresh).
  - reflexivity.
Qed.

(** C10.  On a string that contains [<button], [disable_buttons] is not
    idempotent: the second application differs from the first, because it
    puts a second marker after every [<button], which makes the result
    longer by nine characters for each occurrence. *)
Theorem disable_buttons_not_idempotent (s : str) :
  PyStr.contains (lit "<button") s = true ->
  disable_buttons (disable_buttons s) <> disable_buttons s /\
  disable_buttons (disable_buttons s) =
    PyStr.replace (lit "<button") (lit "<button disabled disabled") s /\
  length (disable_buttons (disable_buttons s)) =
    length (disable_buttons s)
      + 9 * length (occurrences (lit "<button") 0 s).
Proof.
  intro Hc.
  assert (Hlen : length (disable_buttons (disable_buttons s)) =
                 length (disable_buttons s)
                   + 9 * length (occurrences (lit "<button") 0 s)).
  { change (lit "<button") with ("<"%char :: lit "button").
    rewrite <- (finditer_all _ _ button_fresh).
    rewrite (disable_buttons_mark (disable_buttons s)).
    rewrite (mark_length _ _ _ _ 0).
    rewrite (disable_buttons_mark s) at 2.
    rewrite (mark_count _ _ button_fresh _ disabled_fresh s 0 0).
    reflexivity. }
  split; [|split].
  - intro Heq. rewrite Heq in Hlen.
    change (lit "<button") with ("<"%char :: lit "button") in Hc, Hlen.
    apply (contains_finditer _ _ 0) in Hc.
    rewrite (finditer_all _ _ button_fresh) in Hc.
    destruct (occurrences ("<"%char :: lit "button") 0 s);
      [now elim Hc | simpl in Hlen; lia].
  - rewrite !disable_buttons_mark.
    apply (mark_twice _ _ button_fresh _ disabled_fresh).
  - exact Hlen.
Qed.

Lemma disable_buttons_not_idempotent_witness :
  disable_buttons (disable_buttons (lit "<button>Good</button>")) <>
  disable_buttons (lit "<button>Good</button>").
Proof.
  apply (disable_buttons_not_idempotent (lit "<button>Good</button>")).
  reflexivity.
Defined.

(** ** Back-side row *)

(** C5.  [make_backside_answer_buttons] dispatches on the configuration,
    [remove_buttons] first: when it is enabled the result is the buttonless
    row, whatever the host's renderer returns; otherwise, when
    [prevent_clicks] is enabled, the result is the host's rendering passed
    through [disable_buttons], in which every [<button] is followed by the
    disabled marker and from which taking the markers out gives the host's
    rendering back; otherwise the result is the host's rendering. *)
Theorem make_backside_answer_buttons_spec (config : Config) (self : Reviewer)
  (_old : Reviewer -> str) :
  let row := make_backside_answer_buttons config self _old in
  (remove_buttons config = true ->
     row = make_buttonless_ease_row config self false /\
     forall _old', make_backside_answer_buttons config self _old' = row) /\
  (remove_buttons config = false -> prevent_clicks config = true ->
     row = disable_buttons (_old self) /\
     (forall i,
        PyStr.startswith (lit "<button") (skipn i row) = true ->
        PyStr.startswith (lit "<button disabled") (skipn i row) = true) /\
     PyStr.replace (lit "<button disabled") (lit "<button") row
     = _old self) /\
  (remove_buttons config = false -> prevent_clicks config = false ->
     row = _old self).
Proof.
  unfold make_backside_answer_buttons. cbv zeta. split; [|split].
  - intros ->. split; reflexivity.
  - intros -> ->. split; [reflexivity|]. split.
    + apply disable_buttons_occurrences.
    + rewrite disable_buttons_mark.
      exact (unmark_mark _ _ button_fresh (lit " disabled") (_old self)).
  - intros -> ->. reflexivity.
Qed.

Lemma make_backside_answer_buttons_spec_witness :
  make_backside_answer_buttons (sample_config false false true true false)
    sample_reviewer (fun _ => lit "<button>Good</button>") =
  make_buttonless_ease_row (sample_config false false true true false)
    sample_reviewer false /\
  make_backside_answer_buttons (sample_config false false false true false)
    sample_reviewer (fun _ => lit "<button>Good</button>") =
  lit "<button disabled>Good</button>" /\
  make_backside_answer_buttons (sample_config false false false false false)
    sample_reviewer (fun _ => lit "<button>Good</button>") =
  lit "<button>Good</button>".
Proof.
  split; [|split].
  - apply (make_backside_answer_buttons_spec
             (sample_config false false true true false) sample_reviewer
             (fun _ => lit "<button>Good</button>")).
    reflexivity.
  - apply (make_backside_answer_buttons_spec
             (sample_config false false false true false) sample_reviewer
             (fun _ => lit "<button>Good</button>")); reflexivity.
  - apply (make_backside_answer_buttons_spec
             (sample_config false false false false false) sample_reviewer
             (fun _ => lit "<button>Good</button>")); reflexivity.
Defined.

Lemma ease_row_back (config : Config) (self : Reviewer) :
  ease_row config self false =
  map (fun b : button => button_time config self (fst b))
    (_answerButtonList self).
Proof.
  unfold ease_row. simpl. apply map_ext. intros [ease label]. reflexivity.
Qed.

(** ** Front-side row *)

Lemma td_fresh : ~ In "<"%char (lit "td").
Proof. cbv. intuition discriminate. Qed.

Lemma calc_middle_insert_pos_nth (html : str) (p : nat) :
  nth_error (PyStr.finditer (lit "<td") html)
    (length (PyStr.finditer (lit "<td") html) / 2) = Some p ->
  calc_middle_insert_pos html = Ok p.
Proof.
  intro H. unfold calc_middle_insert_pos. rewrite Nat.add_1_r.
  apply last_item_firstn, H.
Qed.

(** C2, the claim as stated fails: on a row without cell markers the
    midpoint computation raises instead of yielding position 0. *)
Lemma calc_middle_insert_pos_no_marker :
  PyStr.finditer (lit "<td") (lit "<tr></tr>") = [] /\
  calc_middle_insert_pos (lit "<tr></tr>") = Raise IndexError /\
  calc_middle_insert_pos (lit "<tr></tr>") <> Ok 0.
Proof. repeat split. discriminate. Qed.

(** C2, amended.  On a row with exactly one cell marker
    [calc_middle_insert_pos] does not raise and yields the offset of that
    marker; on a row without cell markers it raises [IndexError]. *)
Theorem calc_middle_insert_pos_small (html : str) :
  (forall p, PyStr.finditer (lit "<td") html = [p] ->
             calc_middle_insert_pos html = Ok p) /\
  (PyStr.finditer (lit "<td") html = [] ->
   calc_middle_insert_pos html = Raise IndexError).
Proof.
  unfold calc_middle_insert_pos. split.
  - intros p ->. reflexivity.
  - intros ->. reflexivity.
Qed.

Lemma calc_middle_insert_pos_small_witness :
  calc_middle_insert_pos (lit "<tr><td>A</td></tr>") = Ok 4 /\
  calc_middle_insert_pos (lit "<tr></tr>") = Raise IndexError.
Proof.
  split.
  - apply (calc_middle_insert_pos_small (lit "<tr><td>A</td></tr>")).
    reflexivity.
  - apply (calc_middle_insert_pos_small (lit "<tr></tr>")). reflexivity.
Defined.

(** C3, the claim as stated fails: with [remove_buttons] enabled and
    [flexible_grading] disabled the front-side row holds the
    remaining-counts indicator alone, not the time labels. *)
Lemma frontside_row_without_labels :
  ease_row (sample_config false false true false false) sample_reviewer true
  = [stat_txt sample_reviewer] /\
  frontside_html (sample_config false false true false false) sample_tr
    sample_reviewer <>
  Ok (Some (spec_front_row (sample_config false false true false false)
              sample_reviewer)).
Proof.
  split; [reflexivity|]. intro H.
  apply (f_equal (fun r => match r with
                           | Ok (Some html) => length html
                           | _ => 0
                           end)) in H.
  vm_compute in H. discriminate H.
Qed.

(** C3, amended.  With [remove_buttons] enabled the front-side row is the
    style block and the row element around the fragments of [ease_row],
    and it is pushed to the bottom web view.  When [flexible_grading] is
    enabled too, the fragments are the time labels of the back-side row,
    one for each button of the display list, with the remaining-counts
    indicator inserted at index floor(len/2).  When [flexible_grading] is
    disabled, the indicator is the only fragment. *)
Theorem frontside_remove_buttons (config : Config) (tr : Translations)
  (self : Reviewer) :
  remove_buttons config = true ->
  let labels := map (fun b : button => button_time config self (fst b))
                  (_answerButtonList self) in
  frontside_html config tr self =
    Ok (Some (get_ease_row_css
                ++ lit "<div class=" ++ [dq] ++ lit "ajt__ease_row" ++ [dq]
                ++ lit ">" ++ concat (ease_row config self true)
                ++ lit "</div>")) /\
  (forall json_dumps,
     make_frontside_answer_buttons json_dumps config tr self =
     Ok [web_eval (lit "showAnswer("
                     ++ json_dumps (make_buttonless_ease_row config self true)
                     ++ lit ");");
         adjustHeightToFit]) /\
  ease_row config self false = labels /\
  (flexible_grading config = true ->
     ease_row config self true =
       list_insert (length labels / 2) (stat_txt self) labels /\
     frontside_html config tr self
     = Ok (Some (spec_front_row config self))) /\
  (flexible_grading config = false ->
     ease_row config self true = [stat_txt self]).
Proof.
  intros Hr labels.
  assert (Hback : ease_row config self false = labels)
    by apply ease_row_back.
  assert (Hflex : flexible_grading config = true ->
                  ease_row config self true =
                  list_insert (length labels / 2) (stat_txt self) labels).
  { intro Hf. rewrite <- Hback. unfold ease_row. rewrite Hf. reflexivity. }
  assert (Hhtml : frontside_html config tr self =
                  Ok (Some (make_buttonless_ease_row config self true))).
  { unfold frontside_html. rewrite Hr. reflexivity. }
  split; [|split; [|split; [|split]]].
  - rewrite Hhtml. unfold make_buttonless_ease_row.
    rewrite join_empty. reflexivity.
  - intro json_dumps. unfold make_frontside_answer_buttons.
    rewrite Hhtml. reflexivity.
  - exact Hback.
  - intro Hf. split; [exact (Hflex Hf)|].
    rewrite Hhtml. unfold make_buttonless_ease_row, spec_front_row.
    rewrite join_empty, Hback, (Hflex Hf). reflexivity.
  - intro Hf. unfold ease_row. rewrite Hf. reflexivity.
Qed.

Lemma frontside_remove_buttons_witness :
  ease_row (sample_config false false true false true) sample_reviewer true
  = [lit "<span >10m</span>"; lit "<span >10m</span>";
     stat_txt sample_reviewer;
     lit "<span >10m</span>"; lit "<span >10m</span>"] /\
  ease_row (sample_config false false true false false) sample_reviewer true
  = [stat_txt sample_reviewer].
Proof.
  split.
  - destruct (frontside_remove_buttons
                (sample_config false false true false true) sample_tr
                sample_reviewer eq_refl) as (_ & _ & _ & H & _).
    destruct (H eq_refl) as [-> _]. reflexivity.
  - apply (frontside_remove_buttons
             (sample_config false false true false false) sample_tr
             sample_reviewer eq_refl).
    reflexivity.
Defined.

(** *** Splicing a cell into the row *)

Lemma nth_error_pivot (l1 l2 : list nat) (p k : nat) :
  Forall (fun x => x < p) l1 ->
  Forall (fun x => p < x) l2 ->
  nth_error (l1 ++ p :: l2) k = Some p ->
  k = length l1.
Proof.
  intros H1 H2 H.
  destruct (Nat.lt_trichotomy k (length l1)) as [Hk|[Hk|Hk]].
  - rewrite nth_error_app1 in H by exact Hk.
    apply nth_error_In in H. rewrite Forall_forall in H1.
    specialize (H1 _ H). lia.
  - exact Hk.
  - rewrite nth_error_app2 in H by lia.
    destruct (k - length l1) as [|j] eqn:E; [lia|].
    simpl in H. apply nth_error_In in H. rewrite Forall_forall in H2.
    specialize (H2 _ H). lia.
Qed.

Lemma at_marker_app (a : ascii) (x y : str) :
  at_marker a x -> at_marker a y -> at_marker a (x ++ y).
Proof. destruct x; simpl; auto. Qed.

(** The cell markers of a row into which [cell] has been put at the
    offset of the [k]-th marker: the markers before it, the markers of the
    cell, the markers from the [k]-th on, moved by the length of the
    cell. *)
Lemma splice_markers (ans cell : str) (k p : nat) :
  nth_error (PyStr.finditer (lit "<td") ans) k = Some p ->
  at_marker "<"%char cell ->
  length (firstn p ans) = p /\
  PyStr.finditer (lit "<td") (firstn p ans ++ cell ++ skipn p ans) =
  firstn k (PyStr.finditer (lit "<td") ans)
    ++ map (Nat.add p) (PyStr.finditer (lit "<td") cell)
    ++ map (Nat.add (length cell)) (skipn k (PyStr.finditer (lit "<td") ans)).
Proof.
  unfold PyStr.finditer.
  change (lit "<td") with ("<"%char :: lit "td").
  set (td := "<"%char :: lit "td").
  intros Hk Hcell.
  assert (Hin : In p (PyStr.finditer_from td 0 ans))
    by (eapply nth_error_In; exact Hk).
  destruct (finditer_occurrence _ _ 0 p ans Hin) as [_ Hocc].
  rewrite Nat.sub_0_r in Hocc.
  pose proof (finditer_from_upper "<"%char (lit "td") 0 ans) as Hup.
  rewrite Forall_forall in Hup. specialize (Hup _ Hin). simpl in Hup.
  assert (Hlen : length (firstn p ans) = p)
    by (rewrite length_firstn; lia).
  split; [exact Hlen|].
  set (pre := firstn p ans) in *. set (post := skipn p ans) in *.
  apply startswith_split in Hocc.
  set (t := skipn (length td) post) in *.
  assert (Hpost : at_marker "<"%char post) by (rewrite Hocc; reflexivity).
  assert (Hps : PyStr.finditer_from td 0 ans =
                PyStr.finditer_from td 0 pre ++
                p :: PyStr.finditer_from td (p + length td) t).
  { rewrite <- (firstn_skipn p ans) at 1. fold pre post.
    unfold td. rewrite (finditer_from_app _ _ td_fresh) by exact Hpost.
    fold td. rewrite Hlen. simpl Nat.add. rewrite Hocc at 1.
    unfold td. rewrite finditer_from_hit. reflexivity. }
  assert (Hk' : k = length (PyStr.finditer_from td 0 pre)).
  { rewrite Hps in Hk. eapply nth_error_pivot; [| |exact Hk].
    - pose proof (finditer_from_upper "<"%char (lit "td") 0 pre) as H.
      rewrite Hlen in H. exact H.
    - eapply Forall_impl;
        [|apply (finditer_from_lower "<"%char (lit "td"))].
      simpl. intros; lia. }
  assert (Hpost' : PyStr.finditer_from td p post =
                   skipn k (PyStr.finditer_from td 0 ans)).
  { rewrite Hps, Hk', skipn_app, skipn_all, Nat.sub_diag. simpl.
    rewrite Hocc at 1. unfold td. rewrite finditer_from_hit. reflexivity. }
  rewrite <- Hpost'.
  replace (firstn k (PyStr.finditer_from td 0 ans))
    with (PyStr.finditer_from td 0 pre)
    by (rewrite Hps, Hk', firstn_app, firstn_all, Nat.sub_diag;
        simpl; rewrite app_nil_r; reflexivity).
  unfold td.
  rewrite (finditer_from_app _ _ td_fresh)
    by (apply at_marker_app; assumption).
  rewrite (finditer_from_app _ _ td_fresh) by exact Hpost.
  fold td. rewrite Hlen. simpl Nat.add.
  unfold td.
  rewrite (finditer_from_shift _ _ p cell).
  rewrite (finditer_from_shift _ _ (p + length cell) post).
  rewrite (finditer_from_shift _ _ p post), map_map.
  do 2 f_equal. apply map_ext. intro x. lia.
Qed.

(** C4.  Under flexible grading, on a back-side row with N >= 1 cell
    markers, the show-answer cell is put in at the offset of the marker
    with index floor(N/2): the row is the text before that marker, the
    cell, and the text from that marker on, so the cell is the marker with
    index floor(N/2) of the new row; this row, with its buttons disabled
    under [prevent_clicks], is what the front side shows.  When the cell
    holds no marker but its own, the markers of the new row are the first
    floor(N/2) markers of the old row, the cell, and the other markers of
    the old row moved by the length of the cell: N + 1 cells, the old ones
    in their order. *)
Theorem make_flexible_front_row_spec (config : Config) (tr : Translations)
  (self : Reviewer) :
  let ans := _ans_buttons_default self in
  let cell := make_show_ans_table_cell tr self in
  let ps := PyStr.finditer (lit "<td") ans in
  let k := length ps / 2 in
  1 <= length ps ->
  exists p,
    let row := firstn p ans ++ cell ++ skipn p ans in
    nth_error ps k = Some p /\
    make_flexible_front_row tr self = Ok row /\
    (remove_buttons config = false -> flexible_grading config = true ->
     frontside_html config tr self =
     Ok (Some (if prevent_clicks config then disable_buttons row
               else row))) /\
    skipn p row = cell ++ skipn p ans /\
    nth_error (PyStr.finditer (lit "<td") row) k = Some p /\
    (PyStr.finditer (lit "<td") cell = [0] ->
     PyStr.finditer (lit "<td") row =
       firstn k ps ++ p :: map (Nat.add (length cell)) (skipn k ps) /\
     length (PyStr.finditer (lit "<td") row) = S (length ps)).
Proof.
  intros ans cell ps k HN.
  assert (Hk : k < length ps).
  { unfold k. apply Nat.Div0.div_lt_upper_bound. lia. }
  destruct (nth_error ps k) as [p|] eqn:Hp;
    [|apply nth_error_None in Hp; lia].
  exists p. intro row. split; [reflexivity|].
  assert (Hcell : at_marker "<"%char cell) by reflexivity.
  destruct (splice_markers ans cell k p Hp Hcell) as [Hlen Hout].
  fold ps row in Hout.
  assert (Hfk : length (firstn k ps) = k) by (rewrite length_firstn; lia).
  assert (Hrow : make_flexible_front_row tr self = Ok row).
  { unfold make_flexible_front_row. fold ans.
    rewrite (calc_middle_insert_pos_nth ans p Hp). reflexivity. }
  split; [exact Hrow|]. split; [|split; [|split]].
  - intros Hr Hf. unfold frontside_html. rewrite Hr, Hf, Hrow. reflexivity.
  - unfold row. rewrite skipn_app, Hlen, Nat.sub_diag.
    rewrite <- Hlen at 1. rewrite skipn_all. reflexivity.
  - rewrite Hout, nth_error_app2 by lia.
    rewrite Hfk, Nat.sub_diag.
    unfold cell, make_show_ans_table_cell, PyStr.finditer.
    change (lit "<td align=center>")
      with (("<"%char :: lit "td") ++ lit " align=center>").
    change (lit "<td") with ("<"%char :: lit "td").
    rewrite <- app_assoc, finditer_from_hit. simpl.
    rewrite Nat.add_0_r. reflexivity.
  - intro Hone. rewrite Hout, Hone. simpl map. rewrite Nat.add_0_r.
    split; [reflexivity|].
    rewrite length_app. simpl. rewrite length_map, Hfk, length_skipn. lia.
Qed.

Lemma make_flexible_front_row_spec_witness :
  exists html,
    frontside_html (sample_config false false false false true) sample_tr
      sample_reviewer = Ok (Some html) /\
    nth_error (PyStr.finditer (lit "<td") html) 2 = Some 31 /\
    skipn 31 html =
      make_show_ans_table_cell sample_tr sample_reviewer
        ++ lit "<td>C</td><td>D</td></tr></table>" /\
    length (PyStr.finditer (lit "<td") html) = 5.
Proof.
  destruct (make_flexible_front_row_spec
              (sample_config false false false false true) sample_tr
              sample_reviewer)
    as (p & Hp & _ & Hfront & Hskip & Hnth & Hall).
  - vm_compute. lia.
  - vm_compute in Hp. injection Hp as <-.
    eexists. split; [exact (Hfront eq_refl eq_refl)|].
    split; [exact Hnth|]. split; [exact Hskip|]. apply Hall. reflexivity.
Defined.

(** * Further properties of the module *)

(** ** More on the button-list filter *)

Lemma subseq_map {A B : Type} (f : A -> B) (l1 l2 : list A) :
  subseq l1 l2 -> subseq (map f l1) (map f l2).
Proof.
  induction 1; simpl;
    [apply subseq_nil | apply subseq_skip | apply subseq_keep]; assumption.
Qed.

Lemma subseq_length {A : Type} (l1 l2 : list A) :
  subseq l1 l2 -> length l1 <= length l2.
Proof. induction 1; simpl; lia. Qed.

Lemma map_fst_colors (config : Config) (buttons : list button) (d : Z) :
  map fst (apply_label_colors config buttons d) = map fst buttons.
Proof.
  unfold apply_label_colors. rewrite map_map. apply map_ext.
  intros [ease label]. reflexivity.
Qed.

Lemma only_pass_fail_codes (buttons : list button) (d : Z) :
  map fst (only_pass_fail buttons d) =
  filter (fun e => (e =? 1)%Z || (e =? d)%Z) (map fst buttons).
Proof.
  unfold only_pass_fail.
  induction buttons as [|[ease label] l IH]; simpl; [reflexivity|].
  destruct ((ease =? 1)%Z || (ease =? d)%Z); simpl; rewrite IH; reflexivity.
Qed.

(** [only_pass_fail] is idempotent: a list already restricted to pass and
    fail is left as it is. *)
Theorem only_pass_fail_idempotent (buttons : list button) (d : Z) :
  only_pass_fail (only_pass_fail buttons d) d = only_pass_fail buttons d.
Proof.
  unfold only_pass_fail.
  induction buttons as [|b l IH]; simpl; [reflexivity|].
  destruct (is_again_or_good d b) eqn:E; simpl; [rewrite E, IH|];
    auto.
Qed.

(** Whatever the configuration, [filter_answer_buttons] returns action
    codes that are a subsequence of the codes it was given: it adds no
    button and changes no order.  With [pass_fail] off the codes are the
    same; with [color_buttons] off the buttons that remain are untouched. *)
Theorem filter_answer_buttons_codes (config : Config)
  (buttons : list button) (self : Reviewer) :
  subseq (map fst (filter_answer_buttons config buttons self))
    (map fst buttons) /\
  (pass_fail config = false ->
   map fst (filter_answer_buttons config buttons self) = map fst buttons) /\
  (color_buttons config = false ->
   subseq (filter_answer_buttons config buttons self) buttons).
Proof.
  unfold filter_answer_buttons. split; [|split].
  - destruct (pass_fail config), (color_buttons config);
      rewrite ?map_fst_colors;
      try apply subseq_refl; apply subseq_map, subseq_filter.
  - intros ->. destruct (color_buttons config);
      rewrite ?map_fst_colors; reflexivity.
  - intros ->. destruct (pass_fail config);
      [apply subseq_filter | apply subseq_refl].
Qed.

Lemma filter_answer_buttons_codes_witness :
  map fst (filter_answer_buttons (sample_config false true false false false)
             four_buttons sample_reviewer) = [1; 2; 3; 4]%Z /\
  subseq (filter_answer_buttons (sample_config true false false false false)
            four_buttons sample_reviewer) four_buttons.
Proof.
  split.
  - apply (filter_answer_buttons_codes
             (sample_config false true false false false) four_buttons
             sample_reviewer).
    reflexivity.
  - apply (filter_answer_buttons_codes
             (sample_config true false false false false) four_buttons
             sample_reviewer).
    reflexivity.
Defined.

Lemma NoDup_filter {A : Type} (f : A -> bool) (l : list A) :
  NoDup l -> NoDup (filter f l).
Proof.
  induction 1 as [|x l Hx _ IH]; simpl; [constructor|].
  destruct (f x); [|exact IH].
  constructor; [|exact IH]. intro H. apply filter_In in H. tauto.
Qed.

(** When the action codes of the button list are distinct, the pass/fail
    restriction leaves at most two buttons, coloured or not. *)
Theorem filter_answer_buttons_two (config : Config) (buttons : list button)
  (self : Reviewer) :
  pass_fail config = true ->
  NoDup (map fst buttons) ->
  length (filter_answer_buttons config buttons self) <= 2.
Proof.
  intros Hp Hnd.
  assert (Hlen : length (filter_answer_buttons config buttons self) =
                 length (map fst (filter_answer_buttons config buttons self)))
    by (symmetry; apply length_map).
  rewrite Hlen.
  assert (H : map fst (filter_answer_buttons config buttons self) =
              map fst (only_pass_fail buttons (_defaultEase self))).
  { unfold filter_answer_buttons. rewrite Hp.
    destruct (color_buttons config); [apply map_fst_colors | reflexivity]. }
  rewrite H, only_pass_fail_codes.
  change 2 with (length [1%Z; _defaultEase self]).
  apply NoDup_incl_length; [apply NoDup_filter, Hnd|].
  intros e He. apply filter_In in He. destruct He as [_ He].
  apply orb_prop in He. rewrite !Z.eqb_eq in He. simpl.
  destruct He as [-> | ->]; auto.
Qed.

Lemma filter_answer_buttons_two_witness :
  length (filter_answer_buttons (sample_config true true false false false)
            four_buttons sample_reviewer) <= 2.
Proof.
  apply (filter_answer_buttons_two
           (sample_config true true false false false) four_buttons
           sample_reviewer).
  - reflexivity.
  - simpl. repeat constructor; simpl; intuition discriminate.
Defined.

Lemma color_label_injective (config : Config) (d : Z) (b b' : button) :
  color_label config d b = color_label config d b' -> b = b'.
Proof.
  destruct b as [e l], b' as [e' l']. unfold color_label.
  intro H. injection H as He Hl. subst e'. f_equal.
  apply app_inv_head in Hl. injection Hl as Hl.
  apply app_inv_tail in Hl. exact Hl.
Qed.

(** Colouring loses nothing: two button lists that [apply_label_colors]
    sends to the same list are the same list, so the plain labels can be
    read back from the coloured ones. *)
Theorem apply_label_colors_injective (config : Config)
  (buttons buttons' : list button) (d : Z) :
  apply_label_colors config buttons d =
    apply_label_colors config buttons' d ->
  buttons = buttons'.
Proof.
  unfold apply_label_colors. revert buttons'.
  induction buttons as [|b l IH]; intros [|b' l'] H; try discriminate H.
  - reflexivity.
  - simpl in H. injection H as Hb Hl.
    apply color_label_injective in Hb. subst b'. f_equal. apply IH, Hl.
Qed.

Lemma apply_label_colors_injective_witness :
  [(1%Z, lit "Again"); (3%Z, lit "Good")] = only_pass_fail four_buttons 3.
Proof.
  apply (apply_label_colors_injective
           (sample_config true true false false false)
           [(1%Z, lit "Again"); (3%Z, lit "Good")]
           (only_pass_fail four_buttons 3) 3).
  reflexivity.
Defined.

(** ** More on the left-to-right scan *)

Lemma subseq_app {A : Type} (l1 l1' l2 l2' : list A) :
  subseq l1 l1' -> subseq l2 l2' -> subseq (l1 ++ l2) (l1' ++ l2').
Proof.
  intros H1 H2. induction H1; simpl;
    [exact H2 | apply subseq_skip | apply subseq_keep]; assumption.
Qed.

Lemma subseq_app_skip {A : Type} (u l1 l2 : list A) :
  subseq l1 l2 -> subseq l1 (u ++ l2).
Proof.
  intro H. induction u; simpl; [exact H | apply subseq_skip; assumption].
Qed.

Section ScanMore.

Variables (a : ascii) (rest : str).

Local Abbreviation pat := (a :: rest).

Lemma contains_cons_false (c : ascii) (s : str) :
  PyStr.contains pat (c :: s) = false ->
  PyStr.startswith pat (c :: s) = false /\ PyStr.contains pat s = false.
Proof.
  change (PyStr.contains pat (c :: s))
    with (PyStr.startswith pat (c :: s) || PyStr.contains pat s).
  apply orb_false_elim.
Qed.

(** Where the pattern does not occur, [replace] changes nothing. *)
Lemma replace_absent (new s : str) :
  PyStr.contains pat s = false -> PyStr.replace pat new s = s.
Proof.
  induction s as [|c s IH]; intro H; [reflexivity|].
  apply contains_cons_false in H. destruct H as [H1 H2].
  rewrite replace_miss by exact H1. rewrite IH by exact H2. reflexivity.
Qed.

Lemma finditer_absent (i : nat) (s : str) :
  PyStr.contains pat s = false -> PyStr.finditer_from pat i s = [].
Proof.
  intro H. destruct (PyStr.finditer_from pat i s) eqn:E; [reflexivity|].
  assert (Hc : PyStr.contains pat s = true).
  { apply (contains_finditer a rest i). rewrite E. discriminate. }
  congruence.
Qed.

(** Putting a marker after the pattern keeps every character in place. *)
Lemma mark_subseq (extra s : str) :
  subseq s (PyStr.replace pat (pat ++ extra) s).
Proof.
  induction s as [|t IH|c s E IH] using (scan_ind a rest).
  - apply subseq_nil.
  - rewrite replace_hit, <- app_assoc.
    apply subseq_app; [apply subseq_refl|].
    apply subseq_app_skip, IH.
  - rewrite replace_miss by exact E. apply subseq_keep, IH.
Qed.

(** [y] is empty or begins with a character that is not in [r]. *)
Lemma startswith_before_fresh (r x y : str) :
  match y with [] => True | c :: _ => ~ In c r end ->
  PyStr.startswith r (x ++ y) = true -> PyStr.startswith r x = true.
Proof.
  intro Hy. revert x. induction r as [|b r IH]; intros x H.
  - destruct x; reflexivity.
  - destruct x as [|c x].
    + destruct y as [|c y]; simpl in H; [discriminate|].
      apply andb_prop in H. destruct H as [H _].
      apply Ascii.eqb_eq in H. elim Hy. left. exact H.
    + simpl in H |- *. apply andb_prop in H. destruct H as [H1 H2].
      rewrite H1. simpl. apply IH; [|exact H2].
      destruct y as [|d y]; [exact I|].
      intro Hin. apply Hy. right. exact Hin.
Qed.

(** The matches of a text followed by a text that cannot continue an
    occurrence begun in the first. *)
Lemma finditer_from_app_fresh (i : nat) (x y : str) :
  match y with [] => True | c :: _ => ~ In c rest end ->
  PyStr.finditer_from pat i (x ++ y) =
  PyStr.finditer_from pat i x ++ PyStr.finditer_from pat (i + length x) y.
Proof.
  intro Hy. revert i.
  induction x as [|t IH|c x E IH] using (scan_ind a rest); intro i.
  - simpl. rewrite Nat.add_0_r. reflexivity.
  - rewrite <- app_assoc, !finditer_from_hit, IH, length_app.
    rewrite Nat.add_assoc. reflexivity.
  - simpl app. rewrite !finditer_from_miss.
    + rewrite IH. simpl length. rewrite Nat.add_succ_r. reflexivity.
    + exact E.
    + destruct (PyStr.startswith pat (c :: x ++ y)) eqn:E'; [|reflexivity].
      simpl in E, E'. apply andb_prop in E'. destruct E' as [H1 H2].
      rewrite H1 in E. simpl in E.
      rewrite (startswith_before_fresh rest x y Hy H2) in E. discriminate.
Qed.

Hypothesis a_fresh : ~ In a rest.

(** [replace] works on the two sides of a point where the text goes on
    with the first character of the pattern. *)
Lemma replace_app_marker (new x y : str) :
  at_marker a y ->
  PyStr.replace pat new (x ++ y) =
  PyStr.replace pat new x ++ PyStr.replace pat new y.
Proof.
  intro Hy. induction x as [|t IH|c x E IH] using (scan_ind a rest).
  - reflexivity.
  - rewrite <- app_assoc, !replace_hit, IH, app_assoc. reflexivity.
  - simpl app. rewrite !replace_miss.
    + rewrite IH. reflexivity.
    + exact E.
    + rewrite (startswith_no_straddle a rest a_fresh); assumption.
Qed.

End ScanMore.

(** ** More on disabling buttons *)

Lemma disable_buttons_length_scan (s : str) :
  length (disable_buttons s) =
  length s + 9 * length (PyStr.finditer (lit "<button") s).
Proof.
  rewrite disable_buttons_mark.
  exact (mark_length "<"%char (lit "button") (lit " disabled") s 0).
Qed.

(** The output of [disable_buttons] is longer than its input by nine
    characters for each [<button] of the input. *)
Theorem disable_buttons_length (s : str) :
  length (disable_buttons s) =
  length s + 9 * length (occurrences (lit "<button") 0 s).
Proof.
  rewrite disable_buttons_length_scan. unfold PyStr.finditer.
  change (lit "<button") with ("<"%char :: lit "button").
  rewrite (finditer_all _ _ button_fresh). reflexivity.
Qed.

(** [disable_buttons] leaves a string as it is exactly when the string
    holds no [<button]. *)
Theorem disable_buttons_fixed (s : str) :
  disable_buttons s = s <-> PyStr.contains (lit "<button") s = false.
Proof.
  split.
  - intro H. pose proof (disable_buttons_length_scan s) as Hlen.
    rewrite H in Hlen.
    destruct (PyStr.contains (lit "<button") s) eqn:E; [|reflexivity].
    change (lit "<button") with ("<"%char :: lit "button") in E.
    apply (contains_finditer _ _ 0) in E.
    unfold PyStr.finditer in Hlen.
    change (lit "<button") with ("<"%char :: lit "button") in Hlen.
    destruct (PyStr.finditer_from ("<"%char :: lit "button") 0 s);
      [now elim E | simpl in Hlen; lia].
  - intro H. rewrite disable_buttons_mark.
    apply replace_absent. exact H.
Qed.

(** [disable_buttons] removes nothing: its input is a subsequence of its
    output, every character of the markup is kept, in order. *)
Theorem disable_buttons_keeps (s : str) : subseq s (disable_buttons s).
Proof. rewrite disable_buttons_mark. apply mark_subseq. Qed.

(** [disable_buttons] can be applied piece by piece when the markup is
    cut where a tag begins. *)
Theorem disable_buttons_app (x y : str) :
  at_marker "<"%char y ->
  disable_buttons (x ++ y) = disable_buttons x ++ disable_buttons y.
Proof.
  intro Hy. rewrite !disable_buttons_mark.
  apply (replace_app_marker _ _ button_fresh). exact Hy.
Qed.

Lemma disable_buttons_app_witness :
  disable_buttons (lit "<td><button>A</button></td>" ++ lit "<td>B</td>") =
  lit "<td><button disabled>A</button></td>" ++ lit "<td>B</td>".
Proof.
  rewrite (disable_buttons_app (lit "<td><button>A</button></td>")
             (lit "<td>B</td>")); reflexivity.
Defined.

(** ** More on the midpoint and the flexible row *)

Lemma td_absent (html : str) :
  PyStr.contains (lit "<td") html = false <->
  PyStr.finditer (lit "<td") html = [].
Proof.
  unfold PyStr.finditer. change (lit "<td") with ("<"%char :: lit "td").
  split.
  - apply finditer_absent.
  - intro H. destruct (PyStr.contains _ html) eqn:E; [|reflexivity].
    apply (contains_finditer _ _ 0) in E. now elim E.
Qed.

Lemma calc_middle_insert_pos_inv (html : str) (p : nat) :
  calc_middle_insert_pos html = Ok p ->
  nth_error (PyStr.finditer (lit "<td") html)
    (length (PyStr.finditer (lit "<td") html) / 2) = Some p.
Proof.
  intro H.
  destruct (PyStr.finditer (lit "<td") html) as [|q ps] eqn:E.
  - unfold calc_middle_insert_pos in H. rewrite E in H. discriminate H.
  - rewrite <- E in *.
    destruct (nth_error (PyStr.finditer (lit "<td") html)
                (length (PyStr.finditer (lit "<td") html) / 2))
      as [p'|] eqn:Hn.
    + rewrite (calc_middle_insert_pos_nth html p' Hn) in H.
      injection H as ->. reflexivity.
    + apply nth_error_None in Hn.
      assert (length (PyStr.finditer (lit "<td") html) / 2 <
              length (PyStr.finditer (lit "<td") html)).
      { apply Nat.Div0.div_lt_upper_bound. rewrite E. simpl. lia. }
      lia.
Qed.

(** The markers of a row on the two sides of the [k]-th marker. *)
Lemma middle_split (ans : str) (k p : nat) :
  nth_error (PyStr.finditer (lit "<td") ans) k = Some p ->
  p + 3 <= length ans /\
  PyStr.startswith (lit "<td") (skipn p ans) = true /\
  PyStr.finditer (lit "<td") (firstn p ans) =
    firstn k (PyStr.finditer (lit "<td") ans) /\
  map (Nat.add p) (PyStr.finditer (lit "<td") (skipn p ans)) =
    skipn k (PyStr.finditer (lit "<td") ans).
Proof.
  unfold PyStr.finditer.
  change (lit "<td") with ("<"%char :: lit "td").
  set (td := "<"%char :: lit "td").
  intro Hk.
  assert (Hin : In p (PyStr.finditer_from td 0 ans))
    by (eapply nth_error_In; exact Hk).
  destruct (finditer_occurrence _ _ 0 p ans Hin) as [_ Hocc].
  rewrite Nat.sub_0_r in Hocc.
  pose proof (finditer_from_upper "<"%char (lit "td") 0 ans) as Hup.
  rewrite Forall_forall in Hup. specialize (Hup _ Hin). simpl in Hup.
  assert (Hlen : length (firstn p ans) = p)
    by (rewrite length_firstn; lia).
  pose proof (startswith_split _ _ Hocc) as Hpost.
  assert (Hbound : p + 3 <= length ans).
  { apply (f_equal (@length ascii)) in Hpost.
    rewrite length_app, length_skipn in Hpost. simpl in Hpost. lia. }
  split; [exact Hbound|]. split; [exact Hocc|].
  set (pre := firstn p ans) in *. set (post := skipn p ans) in *.
  set (t := skipn (length td) post) in *.
  assert (Hmark : at_marker "<"%char post) by (rewrite Hpost; reflexivity).
  assert (Hps : PyStr.finditer_from td 0 ans =
                PyStr.finditer_from td 0 pre ++
                p :: PyStr.finditer_from td (p + length td) t).
  { rewrite <- (firstn_skipn p ans) at 1. fold pre post.
    unfold td. rewrite (finditer_from_app _ _ td_fresh) by exact Hmark.
    fold td. rewrite Hlen. simpl Nat.add. rewrite Hpost at 1.
    unfold td. rewrite finditer_from_hit. reflexivity. }
  assert (Hk' : k = length (PyStr.finditer_from td 0 pre)).
  { rewrite Hps in Hk. eapply nth_error_pivot; [| |exact Hk].
    - pose proof (finditer_from_upper "<"%char (lit "td") 0 pre) as H.
      rewrite Hlen in H. exact H.
    - eapply Forall_impl;
        [|apply (finditer_from_lower "<"%char (lit "td"))].
      simpl. intros; lia. }
  split.
  - rewrite Hps, Hk', firstn_app, firstn_all, Nat.sub_diag.
    simpl. rewrite app_nil_r. reflexivity.
  - unfold td. rewrite <- (finditer_from_shift _ _ p post). fold td.
    rewrite Hps, Hk', skipn_app, skipn_all, Nat.sub_diag. simpl.
    rewrite Hpost at 1. unfold td. rewrite finditer_from_hit. reflexivity.
Qed.

Lemma calc_middle_insert_pos_cases (html : str) :
  (PyStr.contains (lit "<td") html = false /\
   calc_middle_insert_pos html = Raise IndexError) \/
  (PyStr.contains (lit "<td") html = true /\
   exists p, calc_middle_insert_pos html = Ok p).
Proof.
  destruct (PyStr.contains (lit "<td") html) eqn:Hc.
  - right. split; [reflexivity|].
    destruct (PyStr.finditer (lit "<td") html) as [|q ps] eqn:E.
    + apply td_absent in E. congruence.
    + assert (Hlt : length (PyStr.finditer (lit "<td") html) / 2 <
                    length (PyStr.finditer (lit "<td") html)).
      { apply Nat.Div0.div_lt_upper_bound. rewrite E. simpl. lia. }
      destruct (nth_error (PyStr.finditer (lit "<td") html)
                  (length (PyStr.finditer (lit "<td") html) / 2))
        as [p|] eqn:Hn.
      * exists p. apply calc_middle_insert_pos_nth, Hn.
      * apply nth_error_None in Hn. lia.
  - left. split; [reflexivity|]. apply td_absent in Hc.
    unfold calc_middle_insert_pos. rewrite Hc. reflexivity.
Qed.

(** [calc_middle_insert_pos] raises exactly on a row that holds no [<td],
    and the exception is [IndexError]. *)
Theorem calc_middle_insert_pos_raises (html : str) (e : exn) :
  calc_middle_insert_pos html = Raise e <->
  e = IndexError /\ PyStr.contains (lit "<td") html = false.
Proof.
  destruct (calc_middle_insert_pos_cases html) as [[Hc Hr]|[Hc [p Hp]]];
    rewrite Hc.
  - rewrite Hr. destruct e. split; auto.
  - rewrite Hp. split; [discriminate | intros [_ H]; discriminate H].
Qed.

(** When [calc_middle_insert_pos] returns an offset, the offset lies in the
    row, a cell marker begins there, floor(N/2) of the N markers of the row
    lie before it and the other N - floor(N/2), at least as many, from it
    on. *)
Theorem calc_middle_insert_pos_middle (html : str) (p : nat) :
  calc_middle_insert_pos html = Ok p ->
  let n := length (PyStr.finditer (lit "<td") html) in
  p + 3 <= length html /\
  PyStr.startswith (lit "<td") (skipn p html) = true /\
  length (PyStr.finditer (lit "<td") (firstn p html)) = n / 2 /\
  length (PyStr.finditer (lit "<td") (skipn p html)) = n - n / 2 /\
  n / 2 <= n - n / 2.
Proof.
  intros H n. apply calc_middle_insert_pos_inv in H. fold n in H.
  destruct (middle_split html (n / 2) p H) as (H1 & H2 & H3 & H4).
  assert (Hn : n / 2 < n).
  { apply nth_error_Some. rewrite H. discriminate. }
  split; [exact H1|]. split; [exact H2|]. split; [|split].
  - rewrite H3, length_firstn. fold n. lia.
  - rewrite <- (length_map (Nat.add p)), H4, length_skipn. reflexivity.
  - pose proof (Nat.Div0.mul_div_le n 2). lia.
Qed.

Lemma calc_middle_insert_pos_middle_witness :
  PyStr.startswith (lit "<td") (skipn 31 sample_row) = true /\
  length (PyStr.finditer (lit "<td") (firstn 31 sample_row)) = 2.
Proof.
  destruct (calc_middle_insert_pos_middle sample_row 31 eq_refl)
    as (_ & H1 & H2 & _).
  split; [exact H1 | exact H2].
Defined.

Lemma make_flexible_front_row_ok (tr : Translations) (self : Reviewer)
  (p : nat) :
  calc_middle_insert_pos (_ans_buttons_default self) = Ok p ->
  make_flexible_front_row tr self =
  Ok (firstn p (_ans_buttons_default self)
        ++ make_show_ans_table_cell tr self
        ++ skipn p (_ans_buttons_default self)).
Proof. intro H. unfold make_flexible_front_row. rewrite H. reflexivity. Qed.

Lemma make_flexible_front_row_raise (tr : Translations) (self : Reviewer)
  (e : exn) :
  make_flexible_front_row tr self = Raise e <->
  calc_middle_insert_pos (_ans_buttons_default self) = Raise e.
Proof.
  unfold make_flexible_front_row.
  destruct (calc_middle_insert_pos (_ans_buttons_default self));
    split; intro H; try discriminate H; injection H as ->; reflexivity.
Qed.

(** A row returned by [make_flexible_front_row] is the host's row with the
    show-answer cell put in and nothing else changed: it is longer by the
    length of the cell, it agrees with the host's row up to the insertion
    offset, and cutting the cell out gives the host's row back. *)
Theorem make_flexible_front_row_roundtrip (tr : Translations)
  (self : Reviewer) (row : str) :
  make_flexible_front_row tr self = Ok row ->
  let ans := _ans_buttons_default self in
  let cell := make_show_ans_table_cell tr self in
  exists p,
    calc_middle_insert_pos ans = Ok p /\
    length row = length ans + length cell /\
    firstn p row = firstn p ans /\
    firstn (length cell) (skipn p row) = cell /\
    firstn p row ++ skipn (p + length cell) row = ans.
Proof.
  intros H ans cell.
  destruct (calc_middle_insert_pos ans) as [p|e] eqn:Hp.
  - exists p. split; [reflexivity|].
    rewrite (make_flexible_front_row_ok tr self p Hp) in H.
    fold ans cell in H.
    assert (Hrow : row = firstn p ans ++ cell ++ skipn p ans)
      by congruence.
    rewrite Hrow. clear H Hrow.
    destruct (middle_split ans _ p (calc_middle_insert_pos_inv ans p Hp))
      as (Hb & _).
    assert (Hlen : length (firstn p ans) = p)
      by (rewrite length_firstn; lia).
    assert (Hpre : firstn p (firstn p ans ++ cell ++ skipn p ans) =
                   firstn p ans).
    { rewrite firstn_app, Hlen, Nat.sub_diag, firstn_O, app_nil_r.
      rewrite <- Hlen at 1. apply firstn_all. }
    assert (Hskip : skipn p (firstn p ans ++ cell ++ skipn p ans) =
                    cell ++ skipn p ans).
    { rewrite skipn_app, Hlen, Nat.sub_diag.
      rewrite <- Hlen at 1. rewrite skipn_all. reflexivity. }
    split; [|split; [exact Hpre|split]].
    + rewrite !length_app, Hlen, length_skipn. lia.
    + rewrite Hskip, firstn_app, firstn_all, Nat.sub_diag, firstn_O.
      apply app_nil_r.
    + rewrite Hpre, Nat.add_comm, <- skipn_skipn, Hskip.
      rewrite skipn_app, skipn_all, Nat.sub_diag, skipn_O.
      apply firstn_skipn.
  - apply (make_flexible_front_row_raise tr self e) in Hp.
    rewrite Hp in H. discriminate H.
Qed.

Lemma make_flexible_front_row_roundtrip_witness :
  exists row,
    make_flexible_front_row sample_tr sample_reviewer = Ok row /\
    firstn 31 row ++
      skipn (31 + length (make_show_ans_table_cell sample_tr sample_reviewer))
        row = sample_row.
Proof.
  eexists. split; [reflexivity|].
  destruct (make_flexible_front_row_roundtrip sample_tr sample_reviewer
              _ eq_refl) as (p & Hp & _ & _ & _ & H).
  vm_compute in Hp. injection Hp as <-. exact H.
Defined.

(** What [make_frontside_answer_buttons] does, by configuration.  It raises
    exactly when [remove_buttons] is off, [flexible_grading] is on and the
    host's row holds no [<td]; the exception is [IndexError].  It returns
    without having called the web view exactly when both options are off.
    Whenever it returns after calling the web view it has made two calls,
    [eval] of a [showAnswer] script and then [adjustHeightToFit]. *)
Theorem make_frontside_answer_buttons_outcomes (json_dumps : str -> str)
  (config : Config) (tr : Translations) (self : Reviewer) :
  let r := make_frontside_answer_buttons json_dumps config tr self in
  (forall e,
     r = Raise e <->
     e = IndexError /\ remove_buttons config = false /\
     flexible_grading config = true /\
     PyStr.contains (lit "<td") (_ans_buttons_default self) = false) /\
  (r = Ok [] <->
   remove_buttons config = false /\ flexible_grading config = false) /\
  (forall calls,
     r = Ok calls ->
     calls = [] \/
     exists html,
       calls = [web_eval (lit "showAnswer(" ++ json_dumps html ++ lit ");");
                adjustHeightToFit]).
Proof.
  unfold make_frontside_answer_buttons, frontside_html.
  destruct (remove_buttons config), (flexible_grading config); cbv zeta.
  1, 2: split; [|split].
  1, 4: intro e; split; [discriminate | intros (_ & H & _); discriminate H].
  1, 3: split; [discriminate | intros [H _]; discriminate H].
  1, 2: intros calls H; injection H as <-; right; eexists; reflexivity.
  - destruct (make_flexible_front_row tr self) as [row|e'] eqn:Hrow.
    + split; [|split].
      * intro e. split; [discriminate|]. intros (_ & _ & _ & H).
        destruct (calc_middle_insert_pos_cases (_ans_buttons_default self))
          as [[_ Hr]|[Hc _]]; [|congruence].
        apply (make_flexible_front_row_raise tr self) in Hr. congruence.
      * split; [discriminate | intros [_ H]; discriminate H].
      * intros calls H. injection H as <-. right. eexists. reflexivity.
    + apply (make_flexible_front_row_raise tr self) in Hrow.
      assert (Hc : PyStr.contains (lit "<td") (_ans_buttons_default self)
                   = false).
      { destruct (calc_middle_insert_pos_cases (_ans_buttons_default self))
          as [[Hc _]|[_ [p Hp]]]; [exact Hc | congruence]. }
      destruct e'. split; [|split].
      * intro e. split; [intros _; destruct e; auto | ].
        intros [-> _]. reflexivity.
      * split; [discriminate | intros [_ H]; discriminate H].
      * intros calls H. discriminate H.
  - split; [|split].
    + intro e. split; [discriminate | intros (_ & _ & H & _); discriminate H].
    + split; auto.
    + intros calls H. injection H as <-. left. reflexivity.
Qed.

Lemma make_frontside_answer_buttons_outcomes_witness :
  make_frontside_answer_buttons (fun s => s)
    (sample_config false false false true true) sample_tr bare_reviewer =
  Raise IndexError /\
  make_frontside_answer_buttons (fun s => s)
    (sample_config true true false true false) sample_tr bare_reviewer =
  Ok [].
Proof.
  split.
  - apply (make_frontside_answer_buttons_outcomes (fun s => s)
             (sample_config false false false true true) sample_tr
             bare_reviewer).
    repeat split.
  - apply (make_frontside_answer_buttons_outcomes (fun s => s)
             (sample_config true true false true false) sample_tr
             bare_reviewer).
    split; reflexivity.
Defined.

(** ** The show-answer cell *)

Lemma contains_app_fresh (a : ascii) (rest x y : str) :
  match y with [] => True | c :: _ => ~ In c rest end ->
  PyStr.contains (a :: rest) x = false ->
  PyStr.contains (a :: rest) y = false ->
  PyStr.contains (a :: rest) (x ++ y) = false.
Proof.
  intros Hy Hx Hy'.
  destruct (PyStr.contains (a :: rest) (x ++ y)) eqn:E; [|reflexivity].
  apply (contains_finditer a rest 0) in E. elim E.
  rewrite (finditer_from_app_fresh a rest 0 x y Hy).
  rewrite (finditer_absent a rest 0 x Hx).
  rewrite (finditer_absent a rest (0 + length x) y Hy'). reflexivity.
Qed.

Lemma contains_app_sep (a : ascii) (rest x y : str) (c : ascii) :
  ~ In c (a :: rest) ->
  PyStr.contains (a :: rest) x = false ->
  PyStr.contains (a :: rest) y = false ->
  PyStr.contains (a :: rest) (x ++ c :: y) = false.
Proof.
  intros Hc Hx Hy. apply contains_app_fresh.
  - intro H. apply Hc. right. exact H.
  - exact Hx.
  - change (PyStr.contains (a :: rest) (c :: y))
      with (PyStr.startswith (a :: rest) (c :: y)
            || PyStr.contains (a :: rest) y).
    rewrite Hy, orb_false_r. apply startswith_head.
    intro H. apply Hc. left. exact H.
Qed.

Lemma make_show_ans_button_no_td (tr : Translations) (self : Reviewer) :
  PyStr.contains (lit "<td") (actions_shortcut_key tr (studying_space tr))
  = false ->
  PyStr.contains (lit "<td") (studying_show_answer tr) = false ->
  PyStr.contains (lit "<td") (_remaining self) = false ->
  PyStr.contains (lit "<td") (make_show_ans_button tr self) = false.
Proof.
  intros Hkey Hshow Hrem.
  change (lit "<td") with ("<"%char :: lit "td") in *.
  change (make_show_ans_button tr self)
    with (([nl] ++ lit "        <button title=") ++
          dq :: (actions_shortcut_key tr (studying_space tr) ++
          dq :: (lit " onclick='pycmd(" ++ [dq] ++ lit "ans" ++ [dq]
                   ++ lit ");'") ++
          ">"%char :: (studying_show_answer tr ++
          (lit "<span class=stattxt" ++
          ">"%char :: (_remaining self ++
          (lit "</span></button>" ++ [nl] ++ lit "        ")))))).
  apply contains_app_sep; [cbv; intuition discriminate | reflexivity |].
  apply contains_app_sep; [cbv; intuition discriminate | exact Hkey |].
  apply contains_app_sep; [cbv; intuition discriminate | reflexivity |].
  apply contains_app_fresh;
    [cbv; intuition discriminate | exact Hshow |].
  apply contains_app_sep; [cbv; intuition discriminate | reflexivity |].
  apply contains_app_fresh;
    [cbv; intuition discriminate | exact Hrem | reflexivity].
Qed.

(** When the host's three texts of the show-answer button hold no [<td],
    the show-answer cell has one cell marker, its own, at offset 0; on a
    row with such a cell the flexible row has one marker more than the
    host's row. *)
Theorem make_show_ans_table_cell_marker (tr : Translations)
  (self : Reviewer) :
  PyStr.contains (lit "<td") (actions_shortcut_key tr (studying_space tr))
  = false ->
  PyStr.contains (lit "<td") (studying_show_answer tr) = false ->
  PyStr.contains (lit "<td") (_remaining self) = false ->
  PyStr.finditer (lit "<td") (make_show_ans_table_cell tr self) = [0] /\
  forall row,
    make_flexible_front_row tr self = Ok row ->
    length (PyStr.finditer (lit "<td") row) =
    S (length (PyStr.finditer (lit "<td") (_ans_buttons_default self))).
Proof.
  intros Hkey Hshow Hrem.
  pose proof (make_show_ans_button_no_td tr self Hkey Hshow Hrem) as Hb.
  assert (Hcell : PyStr.finditer (lit "<td")
                    (make_show_ans_table_cell tr self) = [0]).
  { unfold PyStr.finditer, make_show_ans_table_cell.
    change (lit "<td") with ("<"%char :: lit "td") in *.
    change (lit "<td align=center>")
      with (("<"%char :: lit "td") ++ lit " align=center>").
    rewrite <- app_assoc, finditer_from_hit. f_equal.
    apply finditer_absent.
    change (lit " align=center>" ++
            make_show_ans_button tr self ++ lit "</td>")
      with (lit " align=center" ++
            ">"%char :: (make_show_ans_button tr self ++ lit "</td>")).
    apply contains_app_sep; [cbv; intuition discriminate | reflexivity |].
    apply contains_app_fresh;
      [cbv; intuition discriminate | exact Hb | reflexivity]. }
  split; [exact Hcell|].
  intros row Hrow.
  destruct (calc_middle_insert_pos (_ans_buttons_default self))
    as [p|e] eqn:Hp.
  - rewrite (make_flexible_front_row_ok tr self p Hp) in Hrow.
    assert (Hr : row = firstn p (_ans_buttons_default self)
                         ++ make_show_ans_table_cell tr self
                         ++ skipn p (_ans_buttons_default self))
      by congruence.
    apply calc_middle_insert_pos_inv in Hp.
    destruct (splice_markers (_ans_buttons_default self)
                (make_show_ans_table_cell tr self) _ p Hp)
      as [_ Hout]; [reflexivity|].
    rewrite Hr, Hout, Hcell, !length_app, !length_map.
    rewrite length_firstn, length_skipn.
    set (n := length (PyStr.finditer (lit "<td")
                        (_ans_buttons_default self))).
    pose proof (Nat.Div0.mul_div_le n 2) as Hn.
    cbn [length]. lia.
  - apply (make_flexible_front_row_raise tr self e) in Hp.
    rewrite Hp in Hrow. discriminate Hrow.
Qed.

Lemma make_show_ans_table_cell_marker_witness :
  PyStr.finditer (lit "<td")
    (make_show_ans_table_cell sample_tr sample_reviewer) = [0].
Proof.
  apply (make_show_ans_table_cell_marker sample_tr sample_reviewer);
    reflexivity.
Defined.

Lemma disable_show_ans_cell (tr : Translations) (self : Reviewer) :
  exists tail,
    disable_buttons (make_show_ans_table_cell tr self) =
    lit "<td align=center>" ++ [nl]
      ++ lit "        <button disabled title=" ++ [dq] ++ tail.
Proof.
  exists (disable_buttons (skipn 41 (make_show_ans_table_cell tr self))).
  assert (Hc : make_show_ans_table_cell tr self =
               "<"%char ::
               (lit "td align=center>" ++ [nl] ++ lit "        ") ++
               ("<"%char :: lit "button") ++
               (lit " title=" ++ [dq]) ++
               skipn 41 (make_show_ans_table_cell tr self))
    by reflexivity.
  rewrite Hc at 1. rewrite !disable_buttons_mark.
  rewrite replace_miss by reflexivity.
  rewrite replace_fresh by (cbv; intuition discriminate).
  rewrite replace_hit.
  rewrite replace_fresh by (cbv; intuition discriminate).
  reflexivity.
Qed.

(** Under flexible grading with [prevent_clicks], the front side shows the
    host's row and the show-answer cell, each passed through
    [disable_buttons]: the show-answer button is disabled like the grading
    buttons. *)
Theorem flexible_row_disables_show_answer (config : Config)
  (tr : Translations) (self : Reviewer) (p : nat) :
  remove_buttons config = false ->
  flexible_grading config = true ->
  prevent_clicks config = true ->
  calc_middle_insert_pos (_ans_buttons_default self) = Ok p ->
  let ans := _ans_buttons_default self in
  frontside_html config tr self =
    Ok (Some (disable_buttons (firstn p ans)
                ++ disable_buttons (make_show_ans_table_cell tr self)
                ++ disable_buttons (skipn p ans))) /\
  exists tail,
    disable_buttons (make_show_ans_table_cell tr self) =
    lit "<td align=center>" ++ [nl]
      ++ lit "        <button disabled title=" ++ [dq] ++ tail.
Proof.
  intros Hr Hf Hpc Hp ans. split; [|apply disable_show_ans_cell].
  unfold frontside_html.
  rewrite Hr, Hf, Hpc, (make_flexible_front_row_ok tr self p Hp).
  fold ans.
  destruct (middle_split ans _ p (calc_middle_insert_pos_inv ans p Hp))
    as (_ & Hocc & _).
  assert (Hpost : at_marker "<"%char (skipn p ans)).
  { apply startswith_split in Hocc. rewrite Hocc. reflexivity. }
  rewrite !disable_buttons_mark.
  rewrite (replace_app_marker _ _ button_fresh)
    by (apply at_marker_app; [reflexivity | exact Hpost]).
  rewrite (replace_app_marker _ _ button_fresh
             _ (make_show_ans_table_cell tr self))
    by exact Hpost.
  reflexivity.
Qed.

Lemma flexible_row_disables_show_answer_witness :
  exists tail,
    frontside_html (sample_config false false false true true) sample_tr
      sample_reviewer =
    Ok (Some (lit "<table><tr><td>A</td><td>B</td>"
                ++ lit "<td align=center>" ++ [nl]
                ++ lit "        <button disabled title=" ++ [dq] ++ tail
                ++ lit "<td>C</td><td>D</td></tr></table>")).
Proof.
  destruct (flexible_row_disables_show_answer
              (sample_config false false false true true) sample_tr
              sample_reviewer 31 eq_refl eq_refl eq_refl eq_refl)
    as [H [tail Ht]].
  exists tail. rewrite H, Ht. rewrite <- !app_assoc. reflexivity.
Defined.

(** ** More on the time labels *)

Lemma button_time_eq (config : Config) (self : Reviewer) (ease : Z) :
  button_time config self ease =
  let stripped :=
    PyStr.replace nobold (lit "")
      (_buttonTime self ease
         (option_map (fun v3 => describe_next_states self (states v3))
            (_v3 self))) in
  if color_buttons config
  then PyStr.replace (lit "<span")
         (colored_span (get_color config ease (_defaultEase self))) stripped
  else stripped.
Proof. unfold button_time. destruct (_v3 self); reflexivity. Qed.

(** A time label that holds no class string goes through [button_time]
    unchanged when [color_buttons] is off, and with nothing but the colour
    style put in when it is on. *)
Theorem button_time_without_class (config : Config) (self : Reviewer)
  (ease : Z) :
  let label :=
    _buttonTime self ease
      (option_map (fun v3 => describe_next_states self (states v3))
         (_v3 self)) in
  PyStr.contains nobold label = false ->
  button_time config self ease =
  if color_buttons config
  then PyStr.replace (lit "<span")
         (colored_span (get_color config ease (_defaultEase self))) label
  else label.
Proof.
  intros label H. rewrite button_time_eq. cbv zeta. fold label.
  change nobold
    with ("c"%char :: lit "lass=" ++ [dq] ++ lit "nobold" ++ [dq]) in *.
  rewrite (replace_absent _ _ _ _ H). reflexivity.
Qed.

Lemma button_time_without_class_witness :
  button_time (sample_config false false true false false) plain_reviewer 3
  = lit "<span>10m</span>" /\
  button_time (sample_config false true true false false) plain_reviewer 1
  = lit "<span style=" ++ [dq] ++ lit "color: red;" ++ [dq]
      ++ lit ">10m</span>".
Proof.
  split.
  - rewrite (button_time_without_class
               (sample_config false false true false false) plain_reviewer 3);
      reflexivity.
  - rewrite (button_time_without_class
               (sample_config false true true false false) plain_reviewer 1);
      reflexivity.
Defined.

Lemma span_fresh : ~ In "<"%char (lit "span").
Proof. cbv. intuition discriminate. Qed.

Lemma style_fresh (color : str) :
  ~ In "<"%char color ->
  ~ In "<"%char
      (lit " style=" ++ [dq] ++ lit "color: " ++ color ++ lit ";" ++ [dq]).
Proof.
  intros Hc H.
  change (lit " style=" ++ [dq] ++ lit "color: " ++ color ++ lit ";" ++ [dq])
    with ((lit " style=" ++ [dq] ++ lit "color: ") ++ color
            ++ lit ";" ++ [dq]) in H.
  apply in_app_or in H. destruct H as [H|H].
  - revert H. cbv. intuition discriminate.
  - apply in_app_or in H. destruct H as [H|H]; [exact (Hc H)|].
    revert H. cbv. intuition discriminate.
Qed.

(** With [color_buttons] on and a colour that holds no [<], [button_time]
    colours every span of the label: wherever [<span] starts in the
    fragment the colour style follows, the fragment has as many [<span] as
    the label had once the class string was taken out, and it keeps every
    character of that label in order. *)
Theorem button_time_colors_spans (config : Config) (self : Reviewer)
  (ease : Z) :
  color_buttons config = true ->
  ~ In "<"%char (get_color config ease (_defaultEase self)) ->
  let stripped :=
    PyStr.replace nobold (lit "")
      (_buttonTime self ease
         (option_map (fun v3 => describe_next_states self (states v3))
            (_v3 self))) in
  let style := colored_span (get_color config ease (_defaultEase self)) in
  let fragment := button_time config self ease in
  (forall i,
     PyStr.startswith (lit "<span") (skipn i fragment) = true ->
     PyStr.startswith style (skipn i fragment) = true) /\
  length (occurrences (lit "<span") 0 fragment) =
    length (occurrences (lit "<span") 0 stripped) /\
  subseq stripped fragment.
Proof.
  intros Hcol Hfresh stripped style fragment.
  pose proof (style_fresh _ Hfresh) as Hextra.
  assert (Hfrag : fragment =
                  PyStr.replace ("<"%char :: lit "span")
                    (("<"%char :: lit "span") ++
                     (lit " style=" ++ [dq] ++ lit "color: "
                        ++ get_color config ease (_defaultEase self)
                        ++ lit ";" ++ [dq]))
                    stripped).
  { unfold fragment. rewrite button_time_eq, Hcol. reflexivity. }
  change style
    with (("<"%char :: lit "span") ++
          (lit " style=" ++ [dq] ++ lit "color: "
             ++ get_color config ease (_defaultEase self)
             ++ lit ";" ++ [dq])).
  change (lit "<span") with ("<"%char :: lit "span").
  rewrite Hfrag. split; [|split].
  - intros i H. exact (mark_occurrences _ _ span_fresh _ Hextra stripped i H).
  - rewrite <- !(finditer_all _ _ span_fresh).
    apply (mark_count _ _ span_fresh _ Hextra).
  - apply mark_subseq.
Qed.

Lemma button_time_colors_spans_witness :
  subseq (lit "<span >10m</span>")
    (button_time (sample_config false true true false false)
       sample_reviewer 1) /\
  length (occurrences (lit "<span") 0
            (button_time (sample_config false true true false false)
               sample_reviewer 1)) = 1.
Proof.
  destruct (button_time_colors_spans
              (sample_config false true true false false) sample_reviewer 1)
    as (_ & H1 & H2).
  - reflexivity.
  - cbv. intuition discriminate.
  - split; [exact H2 | exact H1].
Defined.

(** ** More on the buttonless row *)

Lemma list_insert_split {A : Type} (i : nat) (x : A) (l : list A) :
  i <= length l ->
  length (list_insert i x l) = S (length l) /\
  nth_error (list_insert i x l) i = Some x /\
  firstn i (list_insert i x l) = firstn i l /\
  skipn (S i) (list_insert i x l) = skipn i l.
Proof.
  intro Hi. unfold list_insert.
  assert (Hlen : length (firstn i l) = i) by (rewrite length_firstn; lia).
  split; [|split; [|split]].
  - rewrite length_app. cbn [length]. rewrite Hlen, length_skipn. lia.
  - rewrite nth_error_app2 by lia. rewrite Hlen, Nat.sub_diag. reflexivity.
  - rewrite firstn_app, Hlen, Nat.sub_diag, firstn_O, app_nil_r.
    rewrite <- Hlen at 1. apply firstn_all.
  - rewrite skipn_app, Hlen.
    replace (S i - i) with 1 by lia.
    rewrite skipn_all2 by lia. reflexivity.
Qed.

(** Whatever the configuration, the back-side buttonless row has one
    fragment for each button of the display list, and the front-side row
    has the remaining-counts indicator in the middle of the labels it
    shows: with m labels, floor(m/2) of them stand before the indicator
    and the others after it, in the order of the back-side row; m is the
    number of buttons under [flexible_grading] and 0 otherwise. *)
Theorem ease_row_shape (config : Config) (self : Reviewer) :
  let back := ease_row config self false in
  let front := ease_row config self true in
  let shown := if flexible_grading config then back else [] in
  let m := length shown in
  length back = length (_answerButtonList self) /\
  length front = S m /\
  nth_error front (m / 2) = Some (stat_txt self) /\
  firstn (m / 2) front = firstn (m / 2) shown /\
  skipn (S (m / 2)) front = skipn (m / 2) shown.
Proof.
  intros back front shown m.
  assert (Hm : m / 2 <= length shown).
  { fold m. pose proof (Nat.Div0.mul_div_le m 2). lia. }
  assert (Hfront : front = list_insert (m / 2) (stat_txt self) shown).
  { unfold front, m, shown, back, ease_row.
    destruct (flexible_grading config); reflexivity. }
  split.
  - unfold back. rewrite ease_row_back. apply length_map.
  - rewrite Hfront. apply list_insert_split, Hm.
Qed.

(** ** The class string in the time labels *)

Lemma contains_app_r (p x y : str) :
  PyStr.contains p (x ++ y) = false -> PyStr.contains p y = false.
Proof.
  induction x as [|c x IH]; intro H; [exact H|].
  change (PyStr.contains p ((c :: x) ++ y))
    with (PyStr.startswith p (c :: x ++ y) || PyStr.contains p (x ++ y))
    in H.
  apply orb_false_elim in H. apply IH, H.
Qed.

Lemma contains_cons (p : str) (c : ascii) (s : str) :
  PyStr.startswith p (c :: s) = false ->
  PyStr.contains p s = false ->
  PyStr.contains p (c :: s) = false.
Proof.
  intros H1 H2.
  change (PyStr.contains p (c :: s))
    with (PyStr.startswith p (c :: s) || PyStr.contains p s).
  rewrite H1, H2. reflexivity.
Qed.

Lemma nobold_cons :
  nobold = "c"%char :: lit "lass=" ++ [dq] ++ lit "nobold" ++ [dq].
Proof. reflexivity. Qed.

Lemma nobold_no_lt : ~ In "<"%char nobold.
Proof. cbv. intuition discriminate. Qed.

Lemma quote_free_clean (s : str) :
  ~ In dq s -> PyStr.contains nobold s = false.
Proof.
  intro H. destruct (PyStr.contains nobold s) eqn:E; [|reflexivity].
  elim H. apply (contains_chars nobold s dq E). cbv. tauto.
Qed.

(** The colour style followed by a text, cut at characters that are not
    in the class string. *)
Lemma colored_span_cut (color tail : str) :
  colored_span color ++ tail =
  (lit "<span style=" ++ [dq] ++ lit "colo") ++
  "r"%char :: (lit ":" ++
  " "%char :: (color ++
  ";"%char :: (dq :: tail))).
Proof.
  unfold colored_span. rewrite <- !app_assoc. reflexivity.
Qed.

(** Putting the colour style into the spans of a text brings the class
    string in only with the colour. *)
Lemma colored_span_clean (color s : str) :
  PyStr.contains nobold color = false ->
  PyStr.contains nobold s = false ->
  PyStr.contains nobold
    (PyStr.replace (lit "<span") (colored_span color) s) = false.
Proof.
  intro Hcol.
  change (lit "<span") with ("<"%char :: lit "span").
  change (colored_span color)
    with (("<"%char :: lit "span") ++
          (lit " style=" ++ [dq] ++ lit "color: " ++ color
             ++ lit ";" ++ [dq])).
  induction s as [|t IH|c s E IH] using (scan_ind "<"%char (lit "span"));
    intro Hs.
  - reflexivity.
  - apply contains_app_r in Hs. specialize (IH Hs).
    rewrite replace_hit.
    change (("<"%char :: lit "span") ++
            (lit " style=" ++ [dq] ++ lit "color: " ++ color
               ++ lit ";" ++ [dq]))
      with (colored_span color).
    rewrite colored_span_cut, nobold_cons.
    apply (contains_app_sep _ _ (lit "<span style=" ++ [dq] ++ lit "colo")
             _ "r"%char);
      [cbv; intuition discriminate | reflexivity |].
    apply (contains_app_sep _ _ (lit ":") _ " "%char);
      [cbv; intuition discriminate | reflexivity |].
    apply (contains_app_sep _ _ color _ ";"%char);
      [cbv; intuition discriminate | rewrite <- nobold_cons; exact Hcol |].
    rewrite <- nobold_cons.
    apply contains_cons; [reflexivity | exact IH].
  - rewrite nobold_cons in Hs. apply contains_cons_false in Hs.
    rewrite <- nobold_cons in Hs. destruct Hs as [Hs1 Hs2].
    rewrite replace_miss by exact E.
    apply contains_cons; [|exact (IH Hs2)].
    destruct (PyStr.startswith nobold (c :: PyStr.replace _ _ s)) eqn:E';
      [|reflexivity].
    rewrite <- (replace_miss _ _ _ _ _ E) in E'.
    apply (startswith_rest_mark _ _ _ _ _ nobold_no_lt) in E'.
    congruence.
Qed.

(** Pieces without a double quote glue to a text without the class
    string. *)
Lemma glue_quote_free (pieces : list str) :
  Forall (fun v => ~ In dq v) pieces ->
  PyStr.contains nobold (concat pieces) = false.
Proof.
  intro H. apply quote_free_clean. intro Hin.
  apply in_concat in Hin. destruct Hin as (v & Hv & Hq).
  rewrite Forall_forall in H. exact (H v Hv Hq).
Qed.

(** Pieces that each go on with a character outside the class string glue
    to a text without the class string. *)
Lemma glue_separated (u : str) (rest : list str) :
  Forall (fun v => PyStr.contains nobold v = false) (u :: rest) ->
  Forall (fun v => match v with
                   | [] => False
                   | c :: _ => ~ In c nobold
                   end) rest ->
  PyStr.contains nobold (concat (u :: rest)) = false.
Proof.
  revert u. induction rest as [|v rest IH]; intros u Hclean Hsep.
  - simpl. rewrite app_nil_r.
    apply Forall_cons_iff in Hclean. apply Hclean.
  - apply Forall_cons_iff in Hclean. destruct Hclean as [Hu Hclean].
    apply Forall_cons_iff in Hsep. destruct Hsep as [Hv Hsep].
    specialize (IH v Hclean Hsep).
    destruct v as [|c v]; [elim Hv|].
    change (concat (u :: (c :: v) :: rest))
      with (u ++ c :: (v ++ concat rest)).
    change (concat ((c :: v) :: rest)) with (c :: (v ++ concat rest)) in IH.
    rewrite nobold_cons in *.
    apply contains_app_sep; [exact Hv | exact Hu |].
    apply contains_cons_false in IH. apply IH.
Qed.

(** C9.  Every fragment of the buttonless row is [button_time] of a button
    of the display list, and [button_time] strips the class string from
    the host's time label: the label is its pieces ([split]) joined by the
    class string, no piece contains the class string, and the fragment is
    the pieces glued together, with the colour style put into every
    [<span] afterwards when [color_buttons] is enabled.  The class string
    does not occur in the fragment, provided the glued pieces do not form
    it anew (they do not when the label's double quotes all belong to its
    class strings, nor when each class string of the label is followed by
    a character that is not in it) and, with [color_buttons] enabled, the
    configured colour does not carry it.  Under these conditions on the
    buttons of the display list, the class string occurs in no fragment
    of the back-side row and in no time label of the front-side row. *)
Theorem button_time_strips_nobold (config : Config) (self : Reviewer) :
  let label := fun ease =>
    _buttonTime self ease
      (option_map (fun v3 => describe_next_states self (states v3))
         (_v3 self)) in
  let pieces := fun ease => PyStr.split nobold (label ease) in
  let colour := fun ease => get_color config ease (_defaultEase self) in
  ease_row config self false =
    map (fun b : button => button_time config self (fst b))
      (_answerButtonList self) /\
  (forall ease,
     label ease = PyStr.join nobold (pieces ease) /\
     Forall (fun v => PyStr.contains nobold v = false) (pieces ease) /\
     button_time config self ease =
       (if color_buttons config
        then PyStr.replace (lit "<span") (colored_span (colour ease))
               (concat (pieces ease))
        else concat (pieces ease)) /\
     (Forall (fun v => ~ In dq v) (pieces ease) ->
      PyStr.contains nobold (concat (pieces ease)) = false) /\
     (Forall (fun v => match v with
                       | [] => False
                       | c :: _ => ~ In c nobold
                       end) (tl (pieces ease)) ->
      PyStr.contains nobold (concat (pieces ease)) = false) /\
     (PyStr.contains nobold (concat (pieces ease)) = false ->
      (color_buttons config = true ->
       PyStr.contains nobold (colour ease) = false) ->
      PyStr.contains nobold (button_time config self ease) = false)) /\
  ((forall b, In b (_answerButtonList self) ->
      PyStr.contains nobold (concat (pieces (fst b))) = false /\
      (color_buttons config = true ->
       PyStr.contains nobold (colour (fst b)) = false)) ->
   Forall (fun f => PyStr.contains nobold f = false)
     (ease_row config self false) /\
   Forall (fun f => f = stat_txt self \/ PyStr.contains nobold f = false)
     (ease_row config self true)).
Proof.
  intros label pieces colour.
  assert (Hbt : forall ease,
            button_time config self ease =
            if color_buttons config
            then PyStr.replace (lit "<span") (colored_span (colour ease))
                   (concat (pieces ease))
            else concat (pieces ease)).
  { intro ease. rewrite button_time_eq. cbv zeta. fold (label ease).
    change (lit "") with (@nil ascii).
    pose proof (replace_split "c"%char
                  (lit "lass=" ++ [dq] ++ lit "nobold" ++ [dq])
                  (label ease)) as H.
    rewrite <- nobold_cons in H. rewrite H. reflexivity. }
  assert (Hclean : forall ease,
            PyStr.contains nobold (concat (pieces ease)) = false ->
            (color_buttons config = true ->
             PyStr.contains nobold (colour ease) = false) ->
            PyStr.contains nobold (button_time config self ease) = false).
  { intros ease Hp Hc. rewrite Hbt.
    destruct (color_buttons config); [|exact Hp].
    apply colored_span_clean; [apply Hc; reflexivity | exact Hp]. }
  assert (Hback : forall l : list button,
            (forall b, In b l ->
               PyStr.contains nobold (concat (pieces (fst b))) = false /\
               (color_buttons config = true ->
                PyStr.contains nobold (colour (fst b)) = false)) ->
            Forall (fun f => PyStr.contains nobold f = false)
              (map (fun b : button => button_time config self (fst b)) l)).
  { intros l Hl. apply Forall_forall. intros f Hf.
    apply in_map_iff in Hf. destruct Hf as (b & <- & Hb).
    destruct (Hl b Hb) as [H1 H2]. apply Hclean; assumption. }
  split; [apply ease_row_back|]. split.
  - intro ease. split; [symmetry; apply (join_split "c"%char)|].
    split; [apply (split_clean "c"%char)|].
    split; [apply Hbt|]. split; [apply glue_quote_free|].
    split; [|apply Hclean].
    intro Hsep.
    pose proof (split_clean "c"%char
                  (lit "lass=" ++ [dq] ++ lit "nobold" ++ [dq])
                  (label ease)) as Hc.
    rewrite <- nobold_cons in Hc. fold (pieces ease) in Hc.
    destruct (pieces ease) as [|u rest].
    + reflexivity.
    + apply glue_separated; assumption.
  - intro Hl. split.
    + rewrite ease_row_back. apply Hback, Hl.
    + pose proof (Hback _ Hl) as Hb.
      rewrite <- ease_row_back in Hb.
      unfold ease_row in Hb |- *. cbn [negb orb app] in Hb |- *.
      destruct (flexible_grading config).
      * unfold list_insert.
        set (l := map _ (_answerButtonList self)) in *.
        rewrite <- (firstn_skipn (length l / 2) l) in Hb.
        apply Forall_app in Hb. destruct Hb as [Hb1 Hb2].
        apply Forall_app. split.
        -- eapply Forall_impl; [|exact Hb1].
           intros f Hf. right. exact Hf.
        -- constructor; [left; reflexivity|].
           eapply Forall_impl; [|exact Hb2].
           intros f Hf. right. exact Hf.
      * repeat constructor.
Qed.

Lemma button_time_strips_nobold_witness :
  Forall (fun f => PyStr.contains nobold f = false)
    (ease_row blue_config days_reviewer false) /\
  button_time blue_config days_reviewer 3 =
  lit "<span style=" ++ [dq] ++ lit "color: blue;" ++ [dq]
    ++ lit " >4d</span>".
Proof.
  destruct (button_time_strips_nobold blue_config days_reviewer)
    as (_ & Hone & Hrow).
  split; [|reflexivity].
  apply Hrow. intros b Hb. split.
  - destruct (Hone (fst b)) as (_ & _ & _ & Hquote & _).
    apply Hquote. vm_compute. repeat constructor; intuition discriminate.
  - intros _. reflexivity.
Defined.

(** The two conditions are needed: a label that nests the class string in
    itself keeps one after the deletion, and a colour that carries the
    class string brings it into the fragment. *)
Lemma nobold_can_remain :
  (In (button_time (sample_config false false true false false)
         nested_reviewer 3)
      (ease_row (sample_config false false true false false)
         nested_reviewer false) /\
   PyStr.contains nobold
     (button_time (sample_config false false true false false)
        nested_reviewer 3) = true) /\
  (In (button_time styled_config sample_reviewer 3)
      (ease_row styled_config sample_reviewer false) /\
   PyStr.contains nobold (button_time styled_config sample_reviewer 3)
   = true).
Proof.
  split; split; try reflexivity.
  - left. reflexivity.
  - right. right. left. reflexivity.
Qed.
